(** * Debate calendar: the reminder dispatcher and the subscription endpoints

    A shallow embedding of

      - [src/app/api/reminders/run/route.ts]   (the dispatcher, [GET]),
      - [src/app/api/subscriptions/route.ts]   (subscribe [POST] / cancel [DELETE]),
      - [src/lib/push.ts]                       ([ensureVapidConfigured], [sendPush]),
      - [src/lib/eventMapper.ts]                ([toDebateEvent]),

    followed by the properties of the reminder window, of the offset
    resolution, of the notification flag and of the guards of the trigger.

    Conventions.  A JavaScript [Date] is its time value: an integer number of
    milliseconds since the epoch, or NaN for an invalid date.  Rows of the
    database are records, tables are lists of rows in storage order.  The
    handlers are written in a small monad that threads the database and the
    trace of external calls and in which a JavaScript exception is a result.
    The two calls a delivery callback awaits inside its [try], the transport
    and the update of the row, resolve or reject as the world outside
    decides; Prisma also rejects an update of a row that is not there.  The
    queries and the writes of the subscription endpoints succeed. *)

From Stdlib Require Import ZArith List String Bool Lia Arith.
Import ListNotations.

Local Open Scope Z_scope.
Local Open Scope string_scope.

(* ===================================================================== *)
(** ** JavaScript values used by the handlers                             *)
(* ===================================================================== *)

(** [a ?? b]: the left operand unless it is null or undefined. *)
Definition nullish {A : Type} (a : option A) (b : option A) : option A :=
  match a with
  | Some x => Some x
  | None => b
  end.

(** [a ?? d] with a right operand that is never null. *)
Definition nullish_default {A : Type} (a : option A) (d : A) : A :=
  match a with
  | Some x => x
  | None => d
  end.

(** Truthiness of a value of type [string | undefined | null]: the empty
    string is falsy, like a missing value. *)
Definition truthy (v : option string) : bool :=
  match v with
  | Some s => negb (s =? "")
  | None => false
  end.

(** Truthiness of a [number | undefined | null] holding an integer. *)
Definition truthyNum (v : option Z) : bool :=
  match v with
  | Some n => negb (n =? 0)%Z
  | None => false
  end.

(** [a === b] on [string | null]. *)
Definition strictEq (a b : option string) : bool :=
  match a, b with
  | Some x, Some y => (x =? y)
  | None, None => true
  | _, _ => false
  end.

(** The largest time value of a [Date], 8.64e15 ms (ECMA-262, TimeClip). *)
Definition maxTime : Z := 8640000000000000.

(** A [Date] object: [Some ms] for a valid date, [None] for Invalid Date
    (time value NaN). *)
Definition JSDate : Type := option Z.

(** [new Date(ms)] for an integral [ms]: TimeClip. *)
Definition Date_new (ms : Z) : JSDate :=
  if (Z.abs ms <=? maxTime)%Z then Some ms else None.

(** [a >= b] on two dates: both are converted to their time values, and a
    comparison with NaN is false. *)
Definition Date_ge (a b : JSDate) : bool :=
  match a, b with
  | Some x, Some y => (y <=? x)%Z
  | _, _ => false
  end.

(** [a < b] on two dates. *)
Definition Date_lt (a b : JSDate) : bool :=
  match a, b with
  | Some x, Some y => (x <? y)%Z
  | _, _ => false
  end.

(** [Math.round(n / 60)] for an integer [n]: the nearest integer, a half
    rounded up. *)
Definition roundDiv60 (n : Z) : Z := ((n + 30) / 60)%Z.

(* ===================================================================== *)
(** ** Data model                                                         *)
(* ===================================================================== *)

(** A row of the [Event] table (the Prisma type [Event], as the handlers
    read and write it).  [start] and [end] are stored instants, hence valid
    dates: they are kept as their time values. *)
Module Event.
Record t : Type := mk {
  id : string;
  title : string;
  start : Z;
  end_ : Z;
  locationLabel : string;
  locationIsOnline : bool;
  locationLink : option string;
  category : string;
  description : string;
  registrationUrl : option string;
  reminderOffsetMinutes : option Z;
  organizers : option string;
  featured : bool
}.
End Event.

(** [DebateEvent] of [src/data/events.ts]: what [toDebateEvent] returns.
    [start] and [end] are ISO strings of the stored instants; they are kept
    as the instants they spell. *)
Module DebateEvent.
Record location_t : Type := mkLocation {
  label : string;
  isOnline : bool;
  link : option string
}.
Record t : Type := mk {
  id : string;
  title : string;
  start : Z;
  end_ : Z;
  location : location_t;
  category : string;
  description : string;
  registrationUrl : option string;
  reminderOffsetMinutes : option Z;
  organizers : option string;
  featured : bool
}.
End DebateEvent.

(** [toDebateEvent] ([src/lib/eventMapper.ts]): null becomes undefined. *)
Definition toDebateEvent (event : Event.t) : DebateEvent.t :=
  {| DebateEvent.id := Event.id event;
     DebateEvent.title := Event.title event;
     DebateEvent.start := Event.start event;
     DebateEvent.end_ := Event.end_ event;
     DebateEvent.location :=
       {| DebateEvent.label := Event.locationLabel event;
          DebateEvent.isOnline := Event.locationIsOnline event;
          DebateEvent.link := nullish (Event.locationLink event) None |};
     DebateEvent.category := Event.category event;
     DebateEvent.description := Event.description event;
     DebateEvent.registrationUrl := nullish (Event.registrationUrl event) None;
     DebateEvent.reminderOffsetMinutes :=
       nullish (Event.reminderOffsetMinutes event) None;
     DebateEvent.organizers := nullish (Event.organizers event) None;
     DebateEvent.featured := Event.featured event |}.

(** A row of the [Subscription] table (email reminders). *)
Module Subscription.
Record t : Type := mk {
  id : string;
  email : string;
  eventId : string;
  customOffsetMinutes : option Z;
  notified : bool;
  notifiedAt : option Z
}.

(** The row after [update({ data: { notified: true, notifiedAt } })]. *)
Definition markNotified (at_ : Z) (s : t) : t :=
  {| id := id s; email := email s; eventId := eventId s;
     customOffsetMinutes := customOffsetMinutes s;
     notified := true; notifiedAt := Some at_ |}.
End Subscription.

(** A row of the [PushSubscription] table (push reminders). *)
Module PushSubscription.
Record t : Type := mk {
  id : string;
  endpoint : string;
  p256dh : string;
  auth : string;
  expirationTime : option Z;
  eventId : string;
  customOffsetMinutes : option Z;
  notified : bool;
  notifiedAt : option Z
}.

Definition markNotified (at_ : Z) (s : t) : t :=
  {| id := id s; endpoint := endpoint s; p256dh := p256dh s; auth := auth s;
     expirationTime := expirationTime s; eventId := eventId s;
     customOffsetMinutes := customOffsetMinutes s;
     notified := true; notifiedAt := Some at_ |}.
End PushSubscription.

(** The database: the three tables the handlers touch. *)
Record DB : Type := mkDB {
  events : list Event.t;
  subscriptions : list Subscription.t;
  pushSubscriptions : list PushSubscription.t
}.

(** Modelled from the spec: the Prisma schema is not among the sources, so
    the column defaults a [create] leaves to it are taken from the data
    model of the specification: a new subscription is not yet notified and
    has no notification time. *)
Definition default_notified : bool := false.

(** Modelled from the spec: the default of the nullable column
    [notifiedAt], absent like the schema (see [default_notified]). *)
Definition default_notifiedAt : option Z := None.

(** [prisma.event.findUnique({ where: { id } })], also the join that
    [include: { event: true }] performs for one row. *)
Definition findEvent (d : DB) (eventId : string) : option Event.t :=
  find (fun e => Event.id e =? eventId) (events d).

(** A subscription as [findMany({ include: { event: true } })] returns it:
    the row and its event.  The handlers read [sub.event] as a required
    relation: the event is there whenever the foreign key is intact.  The
    schema, which is not among the sources, decides whether a key can dangle
    at all; [None] stands for that case, and the properties of a run below
    either assume [intact] or do not depend on it. *)
Record WithEvent (R : Type) : Type := mkWithEvent {
  row : R;
  event : option Event.t
}.
Arguments mkWithEvent {R} _ _.
Arguments row {R} _.
Arguments event {R} _.

(* ===================================================================== *)
(** ** Exceptions and the due test                                        *)
(* ===================================================================== *)

Inductive Exn : Type :=
| TypeError (msg : string)
| Error (msg : string).

(** The effective offset as the filters compute it:
    [sub.customOffsetMinutes ?? event.reminderOffsetMinutes ?? 60].
    [event] is only dereferenced when the left operand is nullish. *)
Definition filterOffset (customOffsetMinutes : option Z)
    (event : option Event.t) : Exn + Z :=
  match customOffsetMinutes with
  | Some c => inr c
  | None =>
      match event with
      | Some e => inr (nullish_default (Event.reminderOffsetMinutes e) 60%Z)
      | None => inl (TypeError "Cannot read properties of null (reading 'reminderOffsetMinutes')")
      end
  end.

(** The body of the two filter callbacks of [GET] (lines 40-46 and 48-54,
    the same text for both tables):

      const event = sub.event;
      const offset = sub.customOffsetMinutes ?? event.reminderOffsetMinutes ?? 60;
      const reminderAt = new Date(event.start.getTime() - offset * 60000);
      return now >= reminderAt && now < event.start;                        *)
Definition dueCallback (now : Z) (customOffsetMinutes : option Z)
    (event : option Event.t) : Exn + bool :=
  match filterOffset customOffsetMinutes event with
  | inl e => inl e
  | inr offset =>
      match event with
      | None => inl (TypeError "Cannot read properties of null (reading 'start')")
      | Some ev =>
          let reminderAt := Date_new (Event.start ev - offset * 60000) in
          inr (Date_ge (Some now) reminderAt
               && Date_lt (Some now) (Some (Event.start ev)))
      end
  end.

(** The offset the delivery callbacks compute, on the mapped event (lines
    59-60 and 79-80). *)
Definition deliveryOffset (customOffsetMinutes : option Z)
    (event : DebateEvent.t) : Z :=
  nullish_default
    (nullish customOffsetMinutes (DebateEvent.reminderOffsetMinutes event))
    60%Z.


(* ===================================================================== *)
(** ** Messages                                                           *)
(* ===================================================================== *)

(** The text of a reminder mail, line by line, before the numbers and the
    date are printed: the lead time with its unit, the start, the place,
    the description and the registration link; [filter(Boolean)] drops an
    empty description and a missing link. *)
Record MailText : Type := mkMailText {
  leadAmount : Z;
  leadUnit : string;
  when : Z;
  whereLabel : string;
  whereLink : option string;
  descriptionLine : option string;
  registerLine : option string
}.

Record Mail : Type := mkMail {
  to : string;
  from : string;
  subject : string;
  text : MailText
}.

(** The environment of the server process. *)
Record Env : Type := mkEnv {
  CRON_SECRET : option string;
  SENDGRID_API_KEY : option string;
  REMINDER_FROM_EMAIL : option string;
  NEXT_PUBLIC_VAPID_PUBLIC_KEY : option string;
  VAPID_PRIVATE_KEY : option string;
  PUSH_CONTACT : option string
}.

(** [buildMessage(email, event, offsetMinutes)]. *)
Definition buildMessage (env : Env) (email : string) (event : DebateEvent.t)
    (offsetMinutes : Z) : Mail :=
  let loc := DebateEvent.location event in
  {| to := email;
     from := nullish_default (REMINDER_FROM_EMAIL env) "";
     subject := "Debate reminder: " ++ DebateEvent.title event;
     text :=
       {| leadAmount :=
            if (roundDiv60 offsetMinutes =? 0)%Z then offsetMinutes
            else roundDiv60 offsetMinutes;
          leadUnit := if (60 <=? offsetMinutes)%Z then "hours" else "minutes";
          when := DebateEvent.start event;
          whereLabel := DebateEvent.label loc;
          whereLink :=
            if truthy (DebateEvent.link loc) then DebateEvent.link loc else None;
          descriptionLine :=
            if truthy (Some (DebateEvent.description event))
            then Some (DebateEvent.description event) else None;
          registerLine :=
            if truthy (DebateEvent.registrationUrl event)
            then DebateEvent.registrationUrl event else None |} |}.

(** The subscription object handed to [web-push]. *)
Record PushKeys : Type := mkPushKeys {
  keys_p256dh : string;
  keys_auth : string
}.

Record PushSub : Type := mkPushSub {
  sub_endpoint : string;
  sub_keys : PushKeys;
  sub_expirationTime : option Z
}.

(** The push payload [{ title, body, url }]; the body is kept as its lead
    time (amount and suffix ["h"] or ["m"]) and the place. *)
Record PushPayload : Type := mkPushPayload {
  push_title : string;
  push_leadAmount : Z;
  push_leadSuffix : string;
  push_place : string;
  push_url : string
}.

Definition pushPayload (event : DebateEvent.t) (offset : Z) : PushPayload :=
  let loc := DebateEvent.location event in
  {| push_title := "Debate reminder: " ++ DebateEvent.title event;
     push_leadAmount := if (60 <=? offset)%Z then roundDiv60 offset else offset;
     push_leadSuffix := if (60 <=? offset)%Z then "h" else "m";
     push_place := DebateEvent.label loc;
     push_url :=
       if truthy (DebateEvent.link loc)
       then nullish_default (DebateEvent.link loc) ""
       else "https://google.com" |}.

(* ===================================================================== *)
(** ** The world outside the handlers                                     *)
(* ===================================================================== *)

Inductive Channel : Type := EmailChannel | PushChannel.

(** What a run of a handler cannot decide itself: the clock, whether a
    transport accepts the message of a subscription (it throws otherwise),
    whether the database writes the update that follows (it rejects
    otherwise, and the row stays as it was), and the key the database gives
    a new row.  The transports, the updates and the clock are indexed by the
    channel and the key of the subscription served. *)
Record World : Type := mkWorld {
  now : Z;
  transport_ok : Channel -> string -> bool;
  update_ok : Channel -> string -> bool;
  update_time : Channel -> string -> Z;
  new_id : Channel -> string
}.

(** The calls that leave the process, in the order they are made. *)
Inductive Effect : Type :=
| SgSetApiKey (key : string)
| FindManySubscriptions
| FindManyPushSubscriptions
| SgMailSend (id : string) (msg : Mail) (accepted : bool)
| SubscriptionUpdate (id : string) (at_ : Z)
| SetVapidDetails (contact publicKey privateKey : string)
| WebPushSend (id : string) (sub : PushSub) (payload : PushPayload)
    (accepted : bool)
| PushSubscriptionUpdate (id : string) (at_ : Z)
| ConsoleError (label : string)
| EventFindUnique (id : string)
| SubscriptionUpsert (email eventId : string)
| PushSubscriptionUpsert (endpoint eventId : string)
| SubscriptionDeleteMany (email eventId : string)
| PushSubscriptionDeleteMany (endpoint eventId : string).

(* ===================================================================== *)
(** ** The handler monad                                                  *)
(* ===================================================================== *)

Record St : Type := mkSt {
  st_db : DB;
  st_trace : list Effect
}.

(** A computation reads and writes the database, appends to the trace, and
    returns a value or throws; what it wrote before throwing stays. *)
Definition M (A : Type) : Type := St -> (Exn + A) * St.

Definition ret {A : Type} (a : A) : M A := fun s => (inr a, s).

Definition throw {A : Type} (e : Exn) : M A := fun s => (inl e, s).

Definition bind {A B : Type} (m : M A) (k : A -> M B) : M B :=
  fun s =>
    match m s with
    | (inr a, s') => k a s'
    | (inl e, s') => (inl e, s')
    end.

(** [try { m } catch (err) { h err }]. *)
Definition try_catch {A : Type} (m : M A) (h : Exn -> M A) : M A :=
  fun s =>
    match m s with
    | (inr a, s') => (inr a, s')
    | (inl e, s') => h e s'
    end.

Declare Scope handler_scope.
Delimit Scope handler_scope with handler.
Notation "x <- m ;; k" := (bind m (fun x => k))
  (at level 61, m at next level, right associativity) : handler_scope.
Notation "m ;; k" := (bind m (fun _ => k))
  (at level 61, right associativity) : handler_scope.
Local Open Scope handler_scope.

Definition lift {A : Type} (r : Exn + A) : M A := fun s => (r, s).

Definition emit (e : Effect) : M unit :=
  fun s => (inr tt, mkSt (st_db s) (st_trace s ++ [e])).

Definition getDB : M DB := fun s => (inr (st_db s), s).

Definition putDB (d : DB) : M unit := fun s => (inr tt, mkSt d (st_trace s)).

(** [Promise.all(l.map(async f))] for callbacks that touch different rows:
    one after the other, in the order of [l]. *)
Fixpoint mapM {A B : Type} (callback : A -> M B) (items : list A)
  : M (list B) :=
  match items with
  | [] => ret []
  | item :: rest =>
      result <- callback item ;;
      results <- mapM callback rest ;;
      ret (result :: results)
  end.

(** [l.filter(f)] for a callback that may throw. *)
Fixpoint filterE {A : Type} (f : A -> Exn + bool) (l : list A)
  : Exn + list A :=
  match l with
  | [] => inr []
  | x :: l' =>
      match f x with
      | inl e => inl e
      | inr b =>
          match filterE f l' with
          | inl e => inl e
          | inr r => inr (if b then x :: r else r)
          end
      end
  end.

(** What a handler leaves behind: its response or the exception nobody
    caught, the database, and the trace of the run. *)
Definition run {A : Type} (m : M A) (d : DB)
  : (Exn + A) * DB * list Effect :=
  let '(r, s) := m (mkSt d []) in (r, st_db s, st_trace s).

(* ===================================================================== *)
(** ** Requests and responses                                             *)
(* ===================================================================== *)

(** The JSON body of the subscription endpoints ([type Payload]). *)
Record Payload : Type := mkPayload {
  p_email : option string;
  p_eventId : option string;
  p_customOffsetMinutes : option Z;
  p_pushSubscription : option PushSub
}.

(** A request: the [authorization] header ([null] when absent) and the
    parsed body. *)
Record Request : Type := mkRequest {
  authorization : option string;
  json : Payload
}.

Inductive Body : Type :=
| ErrorBody (error : string)
| OkBody
| CountsBody (processed sent failed : nat).

(** [NextResponse.json(body, { status })]; the status is 200 by default. *)
Record Response : Type := mkResponse {
  status : Z;
  body : Body
}.

Inductive Status : Type := Sent | Failed.

Definition isSent (s : Status) : bool :=
  match s with Sent => true | Failed => false end.

Definition isFailed (s : Status) : bool :=
  match s with Sent => false | Failed => true end.

(** [{ id, status }], what a delivery callback returns. *)
Record Result : Type := mkResult {
  res_id : string;
  res_status : Status
}.

(* ===================================================================== *)
(** ** Database and transport calls                                       *)
(* ===================================================================== *)

(** [prisma.subscription.findMany({ where: { notified: false },
    include: { event: true } })]. *)
Definition findManySubscriptions : M (list (WithEvent Subscription.t)) :=
  emit FindManySubscriptions ;;
  d <- getDB ;;
  ret (map (fun s => mkWithEvent s (findEvent d (Subscription.eventId s)))
         (filter (fun s => negb (Subscription.notified s)) (subscriptions d))).

(** [prisma.pushSubscription.findMany], the same query. *)
Definition findManyPushSubscriptions : M (list (WithEvent PushSubscription.t)) :=
  emit FindManyPushSubscriptions ;;
  d <- getDB ;;
  ret (map (fun s => mkWithEvent s (findEvent d (PushSubscription.eventId s)))
         (filter (fun s => negb (PushSubscription.notified s))
            (pushSubscriptions d))).

(** [prisma.subscription.update({ where: { id }, data: { notified: true,
    notifiedAt } })]: the promise resolves once the row is written; it
    rejects, with nothing written, when the database does not take the
    update, and Prisma throws when no row has the key. *)
Definition subscriptionUpdate (w : World) (id : string) (at_ : Z) : M unit :=
  emit (SubscriptionUpdate id at_) ;;
  if update_ok w EmailChannel id
  then
    (d <- getDB ;;
     if existsb (fun s => Subscription.id s =? id) (subscriptions d)
     then putDB (mkDB (events d)
                   (map (fun s => if Subscription.id s =? id
                                  then Subscription.markNotified at_ s else s)
                      (subscriptions d))
                   (pushSubscriptions d))
     else throw (Error "Record to update not found"))
  else throw (Error "The database rejected the update").

(** [prisma.pushSubscription.update], the same call on the other table. *)
Definition pushSubscriptionUpdate (w : World) (id : string) (at_ : Z) : M unit :=
  emit (PushSubscriptionUpdate id at_) ;;
  if update_ok w PushChannel id
  then
    (d <- getDB ;;
     if existsb (fun s => PushSubscription.id s =? id) (pushSubscriptions d)
     then putDB (mkDB (events d) (subscriptions d)
                   (map (fun s => if PushSubscription.id s =? id
                                  then PushSubscription.markNotified at_ s else s)
                      (pushSubscriptions d)))
     else throw (Error "Record to update not found"))
  else throw (Error "The database rejected the update").

(** [sgMail.send(msg)] for the subscription [id]: resolves or rejects. *)
Definition sgMail_send (w : World) (id : string) (msg : Mail) : M unit :=
  let ok := transport_ok w EmailChannel id in
  emit (SgMailSend id msg ok) ;;
  if ok then ret tt else throw (Error "SendGrid rejected the message").

(** [ensureVapidConfigured] ([src/lib/push.ts]). *)
Definition ensureVapidConfigured (env : Env) : M unit :=
  let publicKey := NEXT_PUBLIC_VAPID_PUBLIC_KEY env in
  let privateKey := VAPID_PRIVATE_KEY env in
  let contact :=
    if truthy (PUSH_CONTACT env) then nullish_default (PUSH_CONTACT env) ""
    else "mailto:admin@example.com" in
  if negb (truthy publicKey) || negb (truthy privateKey)
  then throw (Error "Missing VAPID keys")
  else emit (SetVapidDetails contact (nullish_default publicKey "")
               (nullish_default privateKey "")).

(** [sendPush(subscription, payload)] for the subscription [id]. *)
Definition sendPush (env : Env) (w : World) (id : string) (subscription : PushSub)
    (payload : PushPayload) : M unit :=
  ensureVapidConfigured env ;;
  let ok := transport_ok w PushChannel id in
  emit (WebPushSend id subscription payload ok) ;;
  if ok then ret tt else throw (Error "web-push rejected the message").

(** Reading a property of [sub.event]: a TypeError when it is null. *)
Definition deref (event : option Event.t) : Exn + Event.t :=
  match event with
  | Some e => inr e
  | None => inl (TypeError "Cannot read properties of null (reading 'id')")
  end.

(* ===================================================================== *)
(** ** The dispatcher: [GET] of [reminders/run/route.ts]                  *)
(* ===================================================================== *)

(** The callback of [due.map] (lines 57-74).  The send and the update are
    awaited in the same [try]: a rejection of either one is caught, logged
    and reported as a failed delivery. *)
Definition emailTask (env : Env) (w : World) (sub : WithEvent Subscription.t)
  : M Result :=
  let id := Subscription.id (row sub) in
  ev <- lift (deref (event sub)) ;;
  let event := toDebateEvent ev in
  let offset :=
    deliveryOffset (Subscription.customOffsetMinutes (row sub)) event in
  let msg := buildMessage env (Subscription.email (row sub)) event offset in
  try_catch
    (sgMail_send w id msg ;;
     subscriptionUpdate w id (update_time w EmailChannel id) ;;
     ret (mkResult id Sent))
    (fun err =>
       emit (ConsoleError "SendGrid error") ;;
       ret (mkResult id Failed)).

(** The callback of [pushDue.map] (lines 77-109). *)
Definition pushTask (env : Env) (w : World) (sub : WithEvent PushSubscription.t)
  : M Result :=
  let id := PushSubscription.id (row sub) in
  ev <- lift (deref (event sub)) ;;
  let event := toDebateEvent ev in
  let offset :=
    deliveryOffset (PushSubscription.customOffsetMinutes (row sub)) event in
  let expirationTime := PushSubscription.expirationTime (row sub) in
  try_catch
    (sendPush env w id
       {| sub_endpoint := PushSubscription.endpoint (row sub);
          sub_keys := {| keys_p256dh := PushSubscription.p256dh (row sub);
                         keys_auth := PushSubscription.auth (row sub) |};
          sub_expirationTime := expirationTime |}
       (pushPayload event offset) ;;
     pushSubscriptionUpdate w id (update_time w PushChannel id) ;;
     ret (mkResult id Sent))
    (fun err =>
       emit (ConsoleError "Push error") ;;
       ret (mkResult id Failed)).

(** [results.filter((r) => r.status === s).length]. *)
Definition countStatus (p : Status -> bool) (l : list Result) : nat :=
  List.length (filter (fun r => p (res_status r)) l).

(** [GET(req)]. *)
Definition GET (env : Env) (w : World) (req : Request) : M Response :=
  let cronSecret := CRON_SECRET env in
  let sendgridKey := SENDGRID_API_KEY env in
  let fromEmail := REMINDER_FROM_EMAIL env in
  if negb (truthy cronSecret) || negb (truthy sendgridKey)
     || negb (truthy fromEmail)
  then ret (mkResponse 500
              (ErrorBody "Missing SENDGRID_API_KEY, REMINDER_FROM_EMAIL, or CRON_SECRET"))
  else
    let auth := authorization req in
    if negb (truthy auth)
       || negb (strictEq auth (Some ("Bearer " ++ nullish_default cronSecret "")))
    then ret (mkResponse 401 (ErrorBody "Unauthorized"))
    else
      emit (SgSetApiKey (nullish_default sendgridKey "")) ;;
      let now := now w in
      subscriptions <- findManySubscriptions ;;
      pushSubscriptions <- findManyPushSubscriptions ;;
      due <- lift (filterE (fun sub =>
                      dueCallback now
                        (Subscription.customOffsetMinutes (row sub)) (event sub))
                    subscriptions) ;;
      pushDue <- lift (filterE (fun sub =>
                      dueCallback now
                        (PushSubscription.customOffsetMinutes (row sub))
                        (event sub))
                    pushSubscriptions) ;;
      emailResults <- mapM (emailTask env w) due ;;
      pushResults <- mapM (pushTask env w) pushDue ;;
      ret (mkResponse 200
             (CountsBody
                (List.length emailResults + List.length pushResults)%nat
                (countStatus isSent emailResults
                 + countStatus isSent pushResults)%nat
                (countStatus isFailed emailResults
                 + countStatus isFailed pushResults)%nat)).

(* ===================================================================== *)
(** ** The subscription endpoints: [POST] and [DELETE]                    *)
(* ===================================================================== *)

(** [prisma.subscription.upsert] on the key [(email, eventId)]. *)
Definition subscriptionUpsert (w : World) (email eventId : string)
    (customOffsetMinutes : option Z) : M unit :=
  emit (SubscriptionUpsert email eventId) ;;
  d <- getDB ;;
  let same (s : Subscription.t) :=
    (Subscription.email s =? email) && (Subscription.eventId s =? eventId) in
  let rows :=
    if existsb same (subscriptions d)
    then map (fun s =>
                if same s
                then {| Subscription.id := Subscription.id s;
                        Subscription.email := Subscription.email s;
                        Subscription.eventId := Subscription.eventId s;
                        Subscription.customOffsetMinutes := customOffsetMinutes;
                        Subscription.notified := false;
                        Subscription.notifiedAt := None |}
                else s)
           (subscriptions d)
    else (subscriptions d ++
         [ {| Subscription.id := new_id w EmailChannel;
              Subscription.email := email;
              Subscription.eventId := eventId;
              Subscription.customOffsetMinutes := customOffsetMinutes;
              Subscription.notified := default_notified;
              Subscription.notifiedAt := default_notifiedAt |} ])%list in
  putDB (mkDB (events d) rows (pushSubscriptions d)).

(** [prisma.pushSubscription.upsert] on the key [(endpoint, eventId)]. *)
Definition pushSubscriptionUpsert (w : World) (ps : PushSub) (eventId : string)
    (customOffsetMinutes : option Z) : M unit :=
  let endpoint := sub_endpoint ps in
  let expirationTime :=
    if truthyNum (sub_expirationTime ps) then sub_expirationTime ps else None in
  emit (PushSubscriptionUpsert endpoint eventId) ;;
  d <- getDB ;;
  let same (s : PushSubscription.t) :=
    (PushSubscription.endpoint s =? endpoint)
    && (PushSubscription.eventId s =? eventId) in
  let rows :=
    if existsb same (pushSubscriptions d)
    then map (fun s =>
                if same s
                then {| PushSubscription.id := PushSubscription.id s;
                        PushSubscription.endpoint := PushSubscription.endpoint s;
                        PushSubscription.p256dh := keys_p256dh (sub_keys ps);
                        PushSubscription.auth := keys_auth (sub_keys ps);
                        PushSubscription.expirationTime := expirationTime;
                        PushSubscription.eventId := PushSubscription.eventId s;
                        PushSubscription.customOffsetMinutes := customOffsetMinutes;
                        PushSubscription.notified := false;
                        PushSubscription.notifiedAt := None |}
                else s)
           (pushSubscriptions d)
    else (pushSubscriptions d ++
         [ {| PushSubscription.id := new_id w PushChannel;
              PushSubscription.endpoint := endpoint;
              PushSubscription.p256dh := keys_p256dh (sub_keys ps);
              PushSubscription.auth := keys_auth (sub_keys ps);
              PushSubscription.expirationTime := expirationTime;
              PushSubscription.eventId := eventId;
              PushSubscription.customOffsetMinutes := customOffsetMinutes;
              PushSubscription.notified := default_notified;
              PushSubscription.notifiedAt := default_notifiedAt |} ])%list in
  putDB (mkDB (events d) (subscriptions d) rows).

(** [if (c) { await m }]. *)
Definition when_ (c : bool) (m : M unit) : M unit :=
  if c then m else ret tt.

(** [POST(req)] of [subscriptions/route.ts]. *)
Definition POST (w : World) (req : Request) : M Response :=
  let body := json req in
  if negb (truthy (p_eventId body))
  then ret (mkResponse 400 (ErrorBody "Missing eventId"))
  else
    let eventId := nullish_default (p_eventId body) "" in
    emit (EventFindUnique eventId) ;;
    d <- getDB ;;
    match findEvent d eventId with
    | None => ret (mkResponse 404 (ErrorBody "Event not found"))
    | Some _ =>
        when_ (truthy (p_email body))
          (subscriptionUpsert w (nullish_default (p_email body) "") eventId
             (nullish (p_customOffsetMinutes body) None)) ;;
        match p_pushSubscription body with
        | Some ps =>
            pushSubscriptionUpsert w ps eventId
              (nullish (p_customOffsetMinutes body) None)
        | None => ret tt
        end ;;
        ret (mkResponse 200 OkBody)
    end.

(** [prisma.subscription.deleteMany({ where: { email, eventId } })]. *)
Definition subscriptionDeleteMany (email eventId : string) : M unit :=
  emit (SubscriptionDeleteMany email eventId) ;;
  d <- getDB ;;
  putDB (mkDB (events d)
           (filter (fun s => negb ((Subscription.email s =? email)
                                   && (Subscription.eventId s =? eventId)))
              (subscriptions d))
           (pushSubscriptions d)).

Definition pushSubscriptionDeleteMany (endpoint eventId : string) : M unit :=
  emit (PushSubscriptionDeleteMany endpoint eventId) ;;
  d <- getDB ;;
  putDB (mkDB (events d) (subscriptions d)
           (filter (fun s => negb ((PushSubscription.endpoint s =? endpoint)
                                   && (PushSubscription.eventId s =? eventId)))
              (pushSubscriptions d))).

(** [DELETE(req)] of [subscriptions/route.ts]. *)
Definition DELETE (req : Request) : M Response :=
  let body := json req in
  if negb (truthy (p_eventId body))
  then ret (mkResponse 400 (ErrorBody "Missing eventId"))
  else
    let eventId := nullish_default (p_eventId body) "" in
    when_ (truthy (p_email body))
      (subscriptionDeleteMany (nullish_default (p_email body) "") eventId) ;;
    when_ (truthy (option_map sub_endpoint (p_pushSubscription body)))
      (pushSubscriptionDeleteMany
         (nullish_default (option_map sub_endpoint (p_pushSubscription body)) "")
         eventId) ;;
    ret (mkResponse 200 OkBody).

(* ===================================================================== *)
(** ** Notions of the specification                                       *)
(* ===================================================================== *)

(** The effective offset in the words of the specification: the override
    of the subscription if present, else the default of the event if
    present, else 60 minutes. *)
Definition spec_effectiveOffset (customOffsetMinutes : option Z)
    (eventOffsetMinutes : option Z) : Z :=
  match customOffsetMinutes with
  | Some c => c
  | None =>
      match eventOffsetMinutes with
      | Some r => r
      | None => 60%Z
      end
  end.

(** The instant a reminder window opens, in milliseconds. *)
Definition spec_reminderAt (customOffsetMinutes : option Z) (ev : Event.t) : Z :=
  (Event.start ev
   - spec_effectiveOffset customOffsetMinutes (Event.reminderOffsetMinutes ev)
     * 60000)%Z.

(** A time value a [Date] can hold. *)
Definition representable (ms : Z) : Prop := (Z.abs ms <= maxTime)%Z.

(** The three secrets of the trigger are set and not empty (the negation
    of the test of line 14). *)
Definition configured (env : Env) : bool :=
  truthy (CRON_SECRET env) && truthy (SENDGRID_API_KEY env)
  && truthy (REMINDER_FROM_EMAIL env).

(** The request carries the bearer credential of the shared secret. *)
Definition authorized (env : Env) (req : Request) : bool :=
  match authorization req, CRON_SECRET env with
  | Some a, Some secret => a =? "Bearer " ++ secret
  | _, _ => false
  end.

(** The VAPID key pair is set and not empty (the negation of the test of
    [ensureVapidConfigured]). *)
Definition vapidConfigured (env : Env) : bool :=
  truthy (NEXT_PUBLIC_VAPID_PUBLIC_KEY env) && truthy (VAPID_PRIVATE_KEY env).

(** The response of a run, or the exception that left the handler. *)
Definition outcome {A : Type} (r : (Exn + A) * DB * list Effect) : Exn + A :=
  fst (fst r).

(** The database a run leaves. *)
Definition final_db {A : Type} (r : (Exn + A) * DB * list Effect) : DB :=
  snd (fst r).

(** The outside calls of a run. *)
Definition trace_of {A : Type} (r : (Exn + A) * DB * list Effect)
  : list Effect := snd r.

(** The invariant of the notification flag: a row that is notified has its
    notification time. *)
Definition notified_has_time (d : DB) : Prop :=
  (forall s, In s (subscriptions d) ->
             Subscription.notified s = true -> Subscription.notifiedAt s <> None)
  /\ (forall s, In s (pushSubscriptions d) ->
                PushSubscription.notified s = true ->
                PushSubscription.notifiedAt s <> None).

(** The operations that write the database.  The dispatcher and the two
    subscription endpoints are the handlers above.  Event administration
    (the handlers of the event routes) writes the [Event] table; whether
    deleting an event also removes its subscriptions is decided by the
    schema, so it may remove any rows of the subscription tables. *)
Inductive Operation : Type :=
| Dispatch (env : Env) (w : World) (req : Request)
| Subscribe (w : World) (req : Request)
| Cancel (req : Request)
| Administer (evs : list Event.t) (keep : Subscription.t -> bool)
    (keepPush : PushSubscription.t -> bool).

Definition apply_op (op : Operation) (d : DB) : DB :=
  match op with
  | Dispatch env w req => final_db (run (GET env w req) d)
  | Subscribe w req => final_db (run (POST w req) d)
  | Cancel req => final_db (run (DELETE req) d)
  | Administer evs keep keepPush =>
      mkDB evs (filter keep (subscriptions d))
        (filter keepPush (pushSubscriptions d))
  end.

(** The databases the application can be in: it starts without
    subscriptions. *)
Inductive reachable : DB -> Prop :=
| reachable_init (evs : list Event.t) : reachable (mkDB evs [] [])
| reachable_step (op : Operation) (d : DB) :
    reachable d -> reachable (apply_op op d).

(** A computation keeps a property of the database, whether it returns or
    throws. *)
Definition preserves {A : Type} (P : DB -> Prop) (m : M A) : Prop :=
  forall s : St, P (st_db s) -> P (st_db (snd (m s))).

(** What the two [findMany] queries of the dispatcher return: the rows not
    yet notified, each with its event. *)
Definition pendingEmail (d : DB) : list (WithEvent Subscription.t) :=
  map (fun s => mkWithEvent s (findEvent d (Subscription.eventId s)))
    (filter (fun s => negb (Subscription.notified s)) (subscriptions d)).

Definition pendingPush (d : DB) : list (WithEvent PushSubscription.t) :=
  map (fun s => mkWithEvent s (findEvent d (PushSubscription.eventId s)))
    (filter (fun s => negb (PushSubscription.notified s)) (pushSubscriptions d)).

(** The answer of the due test, with no answer counted as not due. *)
Definition inWindow (now : Z) (customOffsetMinutes : option Z)
    (ev : option Event.t) : bool :=
  match dueCallback now customOffsetMinutes ev with
  | inr b => b
  | inl _ => false
  end.

(** The due subscriptions of a run at [now]. *)
Definition dueEmail (now : Z) (d : DB) : list (WithEvent Subscription.t) :=
  filter (fun x => inWindow now (Subscription.customOffsetMinutes (row x))
                     (event x))
    (pendingEmail d).

Definition duePush (now : Z) (d : DB) : list (WithEvent PushSubscription.t) :=
  filter (fun x => inWindow now (PushSubscription.customOffsetMinutes (row x))
                     (event x))
    (pendingPush d).

Definition isSome {A : Type} (o : option A) : bool :=
  match o with Some _ => true | None => false end.

(** Referential integrity: every subscription refers to an event of the
    table. *)
Definition referenced (d : DB) : Prop :=
  (forall s, In s (subscriptions d) ->
             isSome (findEvent d (Subscription.eventId s)) = true)
  /\ (forall s, In s (pushSubscriptions d) ->
                isSome (findEvent d (PushSubscription.eventId s)) = true).

(** Referential integrity, as far as the dispatcher can see it: every
    pending subscription has its event. *)
Definition intact (d : DB) : bool :=
  forallb (fun x => isSome (event x)) (pendingEmail d)
  && forallb (fun x => isSome (event x)) (pendingPush d).

(** Whether the transport takes the message of a subscription: it accepts
    it, and for push the VAPID keys are there. *)
Definition accepts (env : Env) (w : World) (c : Channel) (i : string) : bool :=
  match c with
  | EmailChannel => transport_ok w EmailChannel i
  | PushChannel => vapidConfigured env && transport_ok w PushChannel i
  end.

(** Whether the delivery attempted for a subscription goes through, that
    is, whether its callback reaches the end of its [try]: the transport
    takes the message and the update of the row is written. *)
Definition delivers (env : Env) (w : World) (c : Channel) (i : string) : bool :=
  accepts env w c i && update_ok w c i.

(** The rows of a table after the rows with a key in [ids] were marked. *)
Definition markIds {R : Type} (key : R -> string) (mark : Z -> R -> R)
    (stamp : string -> Z) (ids : list string) (tbl : list R) : list R :=
  map (fun r => if existsb (String.eqb (key r)) ids
                then mark (stamp (key r)) r else r) tbl.

(** The keys of the due subscriptions whose delivery goes through: the
    ones a run reports as sent. *)
Definition sentEmailIds (env : Env) (w : World) (d : DB) : list string :=
  map (fun x => Subscription.id (row x))
    (filter (fun x => delivers env w EmailChannel (Subscription.id (row x)))
       (dueEmail (now w) d)).

Definition sentPushIds (env : Env) (w : World) (d : DB) : list string :=
  map (fun x => PushSubscription.id (row x))
    (filter (fun x => delivers env w PushChannel (PushSubscription.id (row x)))
       (duePush (now w) d)).

(** The outside calls made for one due subscription. *)
Definition emailEffects (env : Env) (w : World) (x : WithEvent Subscription.t)
  : list Effect :=
  match event x with
  | None => []
  | Some ev =>
      let id := Subscription.id (row x) in
      let e := toDebateEvent ev in
      let ok := transport_ok w EmailChannel id in
      SgMailSend id
        (buildMessage env (Subscription.email (row x)) e
           (deliveryOffset (Subscription.customOffsetMinutes (row x)) e)) ok
      :: (if ok
          then SubscriptionUpdate id (update_time w EmailChannel id)
               :: (if update_ok w EmailChannel id then []
                   else [ConsoleError "SendGrid error"])
          else [ConsoleError "SendGrid error"])
  end.

Definition pushEffects (env : Env) (w : World)
    (x : WithEvent PushSubscription.t) : list Effect :=
  match event x with
  | None => []
  | Some ev =>
      let id := PushSubscription.id (row x) in
      let e := toDebateEvent ev in
      let ok := transport_ok w PushChannel id in
      if vapidConfigured env
      then
        SetVapidDetails
          (if truthy (PUSH_CONTACT env)
           then nullish_default (PUSH_CONTACT env) ""
           else "mailto:admin@example.com")
          (nullish_default (NEXT_PUBLIC_VAPID_PUBLIC_KEY env) "")
          (nullish_default (VAPID_PRIVATE_KEY env) "")
        :: WebPushSend id
             {| sub_endpoint := PushSubscription.endpoint (row x);
                sub_keys :=
                  {| keys_p256dh := PushSubscription.p256dh (row x);
                     keys_auth := PushSubscription.auth (row x) |};
                sub_expirationTime := PushSubscription.expirationTime (row x) |}
             (pushPayload e
                (deliveryOffset (PushSubscription.customOffsetMinutes (row x)) e))
             ok
        :: (if ok
            then PushSubscriptionUpdate id (update_time w PushChannel id)
                 :: (if update_ok w PushChannel id then []
                     else [ConsoleError "Push error"])
            else [ConsoleError "Push error"])
      else [ConsoleError "Push error"]
  end.

(** The result of the delivery callback for one due subscription. *)
Definition resultOf (env : Env) (w : World) (c : Channel) (i : string) : Result :=
  mkResult i (if delivers env w c i then Sent else Failed).

(** Deliveries and attempts for one subscription in a trace: the messages
    a transport accepted for it, and the messages handed to a transport. *)
Definition deliveredTo (c : Channel) (i : string) (e : Effect) : bool :=
  match c, e with
  | EmailChannel, SgMailSend j _ accepted => (j =? i) && accepted
  | PushChannel, WebPushSend j _ _ accepted => (j =? i) && accepted
  | _, _ => false
  end.

Definition attemptedTo (c : Channel) (i : string) (e : Effect) : bool :=
  match c, e with
  | EmailChannel, SgMailSend j _ _ => j =? i
  | PushChannel, WebPushSend j _ _ _ => j =? i
  | _, _ => false
  end.

Definition deliveries (c : Channel) (i : string) (tr : list Effect) : nat :=
  List.length (filter (deliveredTo c i) tr).

Definition attempts (c : Channel) (i : string) (tr : list Effect) : nat :=
  List.length (filter (attemptedTo c i) tr).

(** The flag of the subscription of a channel and key. *)
Definition isNotified (c : Channel) (i : string) (d : DB) : bool :=
  match c with
  | EmailChannel =>
      existsb (fun s => (Subscription.id s =? i) && Subscription.notified s)
        (subscriptions d)
  | PushChannel =>
      existsb (fun s => (PushSubscription.id s =? i)
                        && PushSubscription.notified s)
        (pushSubscriptions d)
  end.

(** Keys are unique in both subscription tables. *)
Definition keyed (d : DB) : Prop :=
  NoDup (map Subscription.id (subscriptions d))
  /\ NoDup (map PushSubscription.id (pushSubscriptions d)).

(** A push delivery handed to [web-push], or the VAPID details set. *)
Definition isPushCall (e : Effect) : bool :=
  match e with
  | WebPushSend _ _ _ _ => true
  | SetVapidDetails _ _ _ => true
  | _ => false
  end.

(** The due subscriptions of a run in the order their deliveries start:
    the email ones, then the push ones. *)
Definition dueKeys (now : Z) (d : DB) : list (Channel * string) :=
  (map (fun x => (EmailChannel, Subscription.id (row x))) (dueEmail now d)
   ++ map (fun x => (PushChannel, PushSubscription.id (row x))) (duePush now d))%list.

(** The key of a subscription as a list of keys of the table of channel
    [c]: itself when it is of that channel, none otherwise. *)
Definition keysOf (c : Channel) (k : Channel * string) : list string :=
  match c, fst k with
  | EmailChannel, EmailChannel => [snd k]
  | PushChannel, PushChannel => [snd k]
  | _, _ => []
  end.

(** The keys reported as sent, and the keys due, by channel. *)
Definition sentIds (env : Env) (w : World) (c : Channel) (d : DB) : list string :=
  match c with
  | EmailChannel => sentEmailIds env w d
  | PushChannel => sentPushIds env w d
  end.

Definition dueIds (now : Z) (c : Channel) (d : DB) : list string :=
  match c with
  | EmailChannel => map (fun x => Subscription.id (row x)) (dueEmail now d)
  | PushChannel => map (fun x => PushSubscription.id (row x)) (duePush now d)
  end.

(* ===================================================================== *)
(** ** Sample data                                                        *)
(* ===================================================================== *)

(** The weekly practice round of [src/data/events.ts] (2025-01-31, 19:00 to
    21:00 UTC), two email subscriptions and a push subscription to it, and
    runs of the dispatcher half an hour before it starts. *)
Module Sample.
Definition practice : Event.t :=
  Event.mk "weekly-practice" "Weekly Practice Round"
    1738350000000 1738357200000 "Zoom Room A" true
    (Some "https://example.com/zoom/practice-a") "practice"
    "Impromptu BP practice." (Some "https://example.com/rsvp/practice")
    (Some 60%Z) None false.

Definition alice : Subscription.t :=
  Subscription.mk "sub-1" "alice@example.com" "weekly-practice" None false None.

Definition bob : Subscription.t :=
  Subscription.mk "sub-2" "bob@example.com" "weekly-practice" (Some 45%Z)
    false None.

Definition phone : PushSubscription.t :=
  PushSubscription.mk "push-1" "https://push.example.com/send/abc" "p256dh-key"
    "auth-key" None "weekly-practice" None false None.

Definition env : Env :=
  mkEnv (Some "s3cret") (Some "SG.key") (Some "club@example.com")
    (Some "vapid-public") (Some "vapid-private") None.

(** The same server without the VAPID key pair. *)
Definition envNoVapid : Env :=
  mkEnv (Some "s3cret") (Some "SG.key") (Some "club@example.com")
    None None None.

Definition req : Request :=
  mkRequest (Some "Bearer s3cret") (mkPayload None None None None).

(** Every transport accepts every message and every update is written. *)
Definition w : World :=
  mkWorld 1738348200000 (fun _ _ => true) (fun _ _ => true)
    (fun _ _ => 1738348200500%Z) (fun _ => "sub-9").

(** SendGrid rejects the message for ["sub-1"]. *)
Definition wFirstFails : World :=
  mkWorld 1738348200000
    (fun c i => match c with
                | EmailChannel => negb (i =? "sub-1")
                | PushChannel => true
                end)
    (fun _ _ => true) (fun _ _ => 1738348200500%Z) (fun _ => "sub-9").

(** SendGrid accepts every message, and the database rejects the update of
    ["sub-1"] that follows. *)
Definition wUpdateFails : World :=
  mkWorld 1738348200000 (fun _ _ => true)
    (fun c i => match c with
                | EmailChannel => negb (i =? "sub-1")
                | PushChannel => true
                end)
    (fun _ _ => 1738348200500%Z) (fun _ => "sub-9").

Definition db : DB := mkDB [practice] [alice; bob] [phone].
Definition dbTwo : DB := mkDB [practice] [alice; bob] [].
Definition dbPush : DB := mkDB [practice] [] [phone].
End Sample.

(* ===================================================================== *)
(** ** The reminder window                                                *)
(* ===================================================================== *)

Lemma Date_new_representable (ms : Z) :
  representable ms -> Date_new ms = Some ms.
Proof.
  unfold representable, Date_new. intros H.
  destruct (Z.leb_spec (Z.abs ms) maxTime) as [_|Hgt]; [reflexivity | lia].
Qed.

Lemma Date_new_out_of_range (ms : Z) :
  ~ representable ms -> Date_new ms = None.
Proof.
  unfold representable, Date_new. intros H.
  destruct (Z.leb_spec (Z.abs ms) maxTime) as [Hle|_]; [contradiction | reflexivity].
Qed.

Lemma filterOffset_spec (custom : option Z) (ev : Event.t) :
  filterOffset custom (Some ev)
  = inr (spec_effectiveOffset custom (Event.reminderOffsetMinutes ev)).
Proof. destruct custom; reflexivity. Qed.

(** The due test, computed: the window test behind the range check of
    [new Date]. *)
Lemma dueCallback_eq (now : Z) (custom : option Z) (ev : Event.t) :
  dueCallback now custom (Some ev)
  = inr (Date_ge (Some now) (Date_new (spec_reminderAt custom ev))
         && (now <? Event.start ev)%Z).
Proof.
  unfold dueCallback. rewrite filterOffset_spec. reflexivity.
Qed.

(** C4. The offset of a subscription is its own [customOffsetMinutes] when
    that is present, else the [reminderOffsetMinutes] of its event when that
    is present, else 60; the due test and the rendering of the message
    compute the same number, and an override of 30 on an event whose default
    is 120 gives 30. *)
Theorem effective_offset_resolution :
  (forall (custom : option Z) (ev : Event.t),
      let offset :=
        spec_effectiveOffset custom (Event.reminderOffsetMinutes ev) in
      filterOffset custom (Some ev) = inr offset
      /\ deliveryOffset custom (toDebateEvent ev) = offset
      /\ (forall now : Z,
             dueCallback now custom (Some ev)
             = inr (Date_ge (Some now)
                      (Date_new (Event.start ev - offset * 60000))
                    && (now <? Event.start ev)%Z)))
  /\ (forall (c : Z) (r : option Z), spec_effectiveOffset (Some c) r = c)
  /\ (forall r : Z, spec_effectiveOffset None (Some r) = r)
  /\ spec_effectiveOffset None None = 60%Z
  /\ spec_effectiveOffset (Some 30%Z) (Some 120%Z) = 30%Z.
Proof.
  repeat split.
  - apply filterOffset_spec.
  - unfold deliveryOffset, toDebateEvent; simpl.
    destruct custom as [c|]; simpl; [reflexivity|].
    destruct (Event.reminderOffsetMinutes ev); reflexivity.
  - intros now0. apply dueCallback_eq.
Qed.

(** C1. For a subscription whose event is [ev], the filter callback of the
    dispatcher answers, and it answers true exactly when
    [reminderAt <= now < ev.start], with [reminderAt] the start minus the
    effective offset in milliseconds: the window is closed on the left and
    open on the right.  ([reminderAt] is an instant a [Date] can hold, as it
    is for every stored start and every offset of a real calendar.)  The
    email and the push filter run this same callback. *)
Theorem due_iff_in_window (now : Z) (custom : option Z) (ev : Event.t) :
  representable (spec_reminderAt custom ev) ->
  exists b : bool,
    dueCallback now custom (Some ev) = inr b
    /\ (b = true <->
        (spec_reminderAt custom ev <= now /\ now < Event.start ev)%Z).
Proof.
  intros Hrep. rewrite dueCallback_eq, (Date_new_representable _ Hrep).
  eexists; split; [reflexivity|]. simpl.
  rewrite andb_true_iff, Z.leb_le, Z.ltb_lt. tauto.
Qed.

Lemma due_iff_in_window_witness :
  exists b : bool,
    dueCallback 1738348200000 (Some 45%Z) (Some Sample.practice) = inr b
    /\ (b = true <->
        (spec_reminderAt (Some 45%Z) Sample.practice <= 1738348200000
         /\ 1738348200000 < Event.start Sample.practice)%Z).
Proof.
  apply (due_iff_in_window 1738348200000 (Some 45%Z) Sample.practice).
  unfold representable, spec_reminderAt, maxTime. simpl. lia.
Defined.

(** When [reminderAt] is outside the range of [Date], [new Date] gives an
    invalid date and the comparison with it is false. *)
Lemma due_false_out_of_range (now : Z) (custom : option Z) (ev : Event.t) :
  ~ representable (spec_reminderAt custom ev) ->
  dueCallback now custom (Some ev) = inr false.
Proof.
  intros H. rewrite dueCallback_eq, (Date_new_out_of_range _ H). reflexivity.
Qed.

(** Every start a [Date] can hold with room for the largest offset of a
    32-bit column, and every such offset, give a [reminderAt] a [Date] can
    hold. *)
Lemma reminderAt_representable (custom : option Z) (ev : Event.t) :
  (Z.abs (Event.start ev) <= maxTime - 2 ^ 31 * 60000)%Z ->
  (Z.abs (spec_effectiveOffset custom (Event.reminderOffsetMinutes ev))
   <= 2 ^ 31)%Z ->
  representable (spec_reminderAt custom ev).
Proof.
  unfold representable, spec_reminderAt, maxTime. intros Hs Ho. lia.
Qed.

(** The boundary of the window for an event starting at 09:00:00 with an
    offset of 60 minutes: not due at 07:59:59, due at 08:00:00, not due at
    09:00:00 (times of 2025-02-08, UTC, in milliseconds). *)
Example due_boundary :
  let ev := Event.mk "e" "t" 1739005200000 1739005200000 "l" false None
              "practice" "" None (Some 60%Z) None false in
  dueCallback 1739001599000 None (Some ev) = inr false
  /\ dueCallback 1739001600000 None (Some ev) = inr true
  /\ dueCallback 1739005199999 None (Some ev) = inr true
  /\ dueCallback 1739005200000 None (Some ev) = inr false.
Proof. repeat split. Qed.

(** C5. A subscription whose effective offset is zero or negative is never
    due, whatever the time: for zero the window [[start, start)] is empty,
    for a negative offset [reminderAt] lies after the start. *)
Theorem nonpositive_offset_never_due (custom : option Z) (ev : Event.t) :
  (spec_effectiveOffset custom (Event.reminderOffsetMinutes ev) <= 0)%Z ->
  (Event.start ev <= spec_reminderAt custom ev)%Z
  /\ forall now : Z, dueCallback now custom (Some ev) = inr false.
Proof.
  intros Hoff. split; [unfold spec_reminderAt; lia|].
  intros now0. rewrite dueCallback_eq. f_equal.
  unfold Date_new, spec_reminderAt.
  destruct (Z.abs _ <=? maxTime)%Z; simpl; [|reflexivity].
  destruct (Z.leb_spec
              (Event.start ev
               - spec_effectiveOffset custom (Event.reminderOffsetMinutes ev)
                 * 60000) now0) as [Hle|Hgt]; simpl; [|reflexivity].
  apply Z.ltb_ge. lia.
Qed.

Lemma nonpositive_offset_never_due_witness :
  (1739005200000 <= 1739005200000 - 0 * 60000)%Z
  /\ forall now : Z,
      dueCallback now (Some 0%Z)
        (Some (Event.mk "e" "t" 1739005200000 1739005200000 "l" false None
                 "practice" "" None (Some 60%Z) None false)) = inr false.
Proof.
  apply (nonpositive_offset_never_due (Some 0%Z)
           (Event.mk "e" "t" 1739005200000 1739005200000 "l" false None
              "practice" "" None (Some 60%Z) None false)).
  simpl. lia.
Defined.

(* ===================================================================== *)
(** ** The guards of the trigger                                          *)
(* ===================================================================== *)

Lemma truthy_Some (v : option string) :
  truthy v = true -> exists s, v = Some s /\ s <> "".
Proof.
  destruct v as [s|]; simpl; [|discriminate].
  intros H. exists s. split; [reflexivity|].
  intros ->. discriminate.
Qed.

Lemma config_guard_eq (env : Env) :
  negb (truthy (CRON_SECRET env)) || negb (truthy (SENDGRID_API_KEY env))
  || negb (truthy (REMINDER_FROM_EMAIL env)) = negb (configured env).
Proof.
  unfold configured.
  destruct (truthy (CRON_SECRET env)), (truthy (SENDGRID_API_KEY env)),
    (truthy (REMINDER_FROM_EMAIL env)); reflexivity.
Qed.

Lemma auth_guard_eq (env : Env) (req : Request) :
  configured env = true ->
  negb (truthy (authorization req))
  || negb (strictEq (authorization req)
             (Some ("Bearer " ++ nullish_default (CRON_SECRET env) "")))
  = negb (authorized env req).
Proof.
  unfold configured, authorized. intros H.
  apply andb_true_iff in H as [H _]. apply andb_true_iff in H as [H _].
  destruct (truthy_Some _ H) as (secret & -> & _).
  destruct (authorization req) as [a|]; [|reflexivity].
  cbn [truthy strictEq nullish_default].
  destruct (String.eqb_spec a ("Bearer " ++ secret)) as [->|].
  - reflexivity.
  - destruct (a =? ""); reflexivity.
Qed.

Lemma configured_false (env : Env) :
  truthy (CRON_SECRET env) = false \/ truthy (SENDGRID_API_KEY env) = false
  \/ truthy (REMINDER_FROM_EMAIL env) = false ->
  configured env = false.
Proof.
  unfold configured. intros [H | [H | H]]; rewrite H;
    rewrite ?andb_false_r; reflexivity.
Qed.

Lemma authorized_iff (env : Env) (req : Request) :
  authorized env req = true <->
  exists secret, CRON_SECRET env = Some secret
                 /\ authorization req = Some ("Bearer " ++ secret).
Proof.
  unfold authorized. split.
  - destruct (authorization req) as [a|]; [|discriminate].
    destruct (CRON_SECRET env) as [secret|]; [|discriminate].
    intros H. apply String.eqb_eq in H. subst a. exists secret. split; reflexivity.
  - intros (secret & -> & ->). apply String.eqb_refl.
Qed.

Lemma GET_not_configured (env : Env) (w : World) (req : Request) (d : DB) :
  configured env = false ->
  run (GET env w req) d
  = (inr (mkResponse 500
            (ErrorBody "Missing SENDGRID_API_KEY, REMINDER_FROM_EMAIL, or CRON_SECRET")),
     d, []).
Proof.
  intros H. unfold run, GET. rewrite config_guard_eq, H. reflexivity.
Qed.

Lemma GET_not_authorized (env : Env) (w : World) (req : Request) (d : DB) :
  configured env = true -> authorized env req = false ->
  run (GET env w req) d
  = (inr (mkResponse 401 (ErrorBody "Unauthorized")), d, []).
Proof.
  intros Hc Ha. unfold run, GET.
  rewrite config_guard_eq, Hc. simpl negb. cbv iota.
  rewrite (auth_guard_eq env req Hc), Ha. reflexivity.
Qed.

(** C7. A trigger request with one of [CRON_SECRET], [SENDGRID_API_KEY],
    [REMINDER_FROM_EMAIL] missing (unset or empty) is answered 500 and
    nothing is read, written or sent; with the three present and an
    [authorization] header that is not ["Bearer " ++ CRON_SECRET] it is
    answered 401 and nothing is read, written or sent; so a run that makes
    any outside call at all has passed both checks. *)
Theorem trigger_guards (env : Env) (w : World) (req : Request) (d : DB) :
  (truthy (CRON_SECRET env) = false \/ truthy (SENDGRID_API_KEY env) = false
   \/ truthy (REMINDER_FROM_EMAIL env) = false ->
   run (GET env w req) d
   = (inr (mkResponse 500
             (ErrorBody "Missing SENDGRID_API_KEY, REMINDER_FROM_EMAIL, or CRON_SECRET")),
      d, []))
  /\ (forall secret : string,
        CRON_SECRET env = Some secret ->
        truthy (CRON_SECRET env) = true ->
        truthy (SENDGRID_API_KEY env) = true ->
        truthy (REMINDER_FROM_EMAIL env) = true ->
        authorization req <> Some ("Bearer " ++ secret) ->
        run (GET env w req) d
        = (inr (mkResponse 401 (ErrorBody "Unauthorized")), d, []))
  /\ (forall e : Effect,
        In e (trace_of (run (GET env w req) d)) ->
        (truthy (CRON_SECRET env) = true
         /\ truthy (SENDGRID_API_KEY env) = true
         /\ truthy (REMINDER_FROM_EMAIL env) = true)
        /\ exists secret : string,
            CRON_SECRET env = Some secret
            /\ authorization req = Some ("Bearer " ++ secret)).
Proof.
  split; [|split].
  - intros H. apply GET_not_configured, configured_false, H.
  - intros secret Hs H1 H2 H3 Hne.
    apply GET_not_authorized.
    + unfold configured. rewrite H1, H2, H3. reflexivity.
    + destruct (authorized env req) eqn:Ha; [|reflexivity].
      apply authorized_iff in Ha as (s' & Hs' & Ha).
      rewrite Hs in Hs'. injection Hs' as <-. contradiction.
  - intros e He.
    destruct (configured env) eqn:Hc.
    + destruct (authorized env req) eqn:Ha.
      * split; [|apply authorized_iff, Ha].
        unfold configured in Hc.
        apply andb_true_iff in Hc as [Hc H3].
        apply andb_true_iff in Hc as [H1 H2]. auto.
      * rewrite (GET_not_authorized env w req d Hc Ha) in He. destruct He.
    + rewrite (GET_not_configured env w req d Hc) in He. destruct He.
Qed.

Lemma trigger_guards_witness :
  let env := mkEnv (Some "s3cret") None (Some "club@example.com") None None None in
  let env' := mkEnv (Some "s3cret") (Some "SG.key") (Some "club@example.com")
                None None None in
  let w := mkWorld 0 (fun _ _ => true) (fun _ _ => true) (fun _ _ => 0%Z)
             (fun _ => "n") in
  let req := mkRequest (Some "Bearer guess") (mkPayload None None None None) in
  let d := mkDB [] [] [] in
  run (GET env w req) d
  = (inr (mkResponse 500
            (ErrorBody "Missing SENDGRID_API_KEY, REMINDER_FROM_EMAIL, or CRON_SECRET")),
     d, [])
  /\ run (GET env' w req) d
     = (inr (mkResponse 401 (ErrorBody "Unauthorized")), d, []).
Proof.
  cbv zeta. split.
  - apply (proj1 (trigger_guards
                    (mkEnv (Some "s3cret") None (Some "club@example.com")
                       None None None)
                    (mkWorld 0 (fun _ _ => true) (fun _ _ => true)
                       (fun _ _ => 0%Z) (fun _ => "n"))
                    (mkRequest (Some "Bearer guess")
                       (mkPayload None None None None))
                    (mkDB [] [] []))).
    right; left; reflexivity.
  - apply (proj1 (proj2 (trigger_guards
                    (mkEnv (Some "s3cret") (Some "SG.key")
                       (Some "club@example.com") None None None)
                    (mkWorld 0 (fun _ _ => true) (fun _ _ => true)
                       (fun _ _ => 0%Z) (fun _ => "n"))
                    (mkRequest (Some "Bearer guess")
                       (mkPayload None None None None))
                    (mkDB [] [] []))) "s3cret");
      try reflexivity.
    discriminate.
Defined.

(* ===================================================================== *)
(** ** Cancelling a subscription                                          *)
(* ===================================================================== *)

(** C10. [DELETE] never looks at the [authorization] header: a request and
    the same request under any other header leave the same response, the
    same database and the same trace; and a request that carries an
    [eventId] is answered ok, with the rows of its email, and of its push
    endpoint, for that event removed. *)
Theorem DELETE_ignores_authorization (req : Request) (a : option string)
    (d : DB) :
  run (DELETE req) d = run (DELETE (mkRequest a (json req))) d
  /\ (forall eventId : string,
        p_eventId (json req) = Some eventId -> eventId <> "" ->
        outcome (run (DELETE req) d) = inr (mkResponse 200 OkBody)
        /\ (forall email : string,
              p_email (json req) = Some email -> email <> "" ->
              subscriptions (final_db (run (DELETE req) d))
              = filter (fun s => negb ((Subscription.email s =? email)
                                       && (Subscription.eventId s =? eventId)))
                  (subscriptions d))
        /\ (forall ps : PushSub,
              p_pushSubscription (json req) = Some ps ->
              sub_endpoint ps <> "" ->
              pushSubscriptions (final_db (run (DELETE req) d))
              = filter (fun s =>
                          negb ((PushSubscription.endpoint s =? sub_endpoint ps)
                                && (PushSubscription.eventId s =? eventId)))
                  (pushSubscriptions d))).
Proof.
  split; [reflexivity|].
  intros eventId He Hne.
  assert (Ht : forall s : string, s <> "" -> truthy (Some s) = true).
  { intros s Hs. simpl. destruct (String.eqb_spec s ""); [contradiction|reflexivity]. }
  unfold run, DELETE, outcome, final_db. rewrite He, (Ht _ Hne).
  destruct (json req) as [em ei co ps]; cbn [p_email p_pushSubscription] in *.
  cbn [negb].
  split; [|split].
  - destruct (truthy em), (truthy (option_map sub_endpoint ps)); reflexivity.
  - intros email -> Hem. rewrite (Ht _ Hem).
    destruct (truthy (option_map sub_endpoint ps)); reflexivity.
  - intros ps' -> Hep. cbn [option_map]. rewrite (Ht _ Hep).
    destruct (truthy em); reflexivity.
Qed.

Lemma DELETE_ignores_authorization_witness :
  let d := mkDB [] [Subscription.mk "s1" "a@example.com" "e1" None false None;
                    Subscription.mk "s2" "b@example.com" "e1" None false None] [] in
  let req := mkRequest None
               (mkPayload (Some "a@example.com") (Some "e1") None None) in
  outcome (run (DELETE req) d) = inr (mkResponse 200 OkBody)
  /\ subscriptions (final_db (run (DELETE req) d))
     = filter (fun s => negb ((Subscription.email s =? "a@example.com")
                              && (Subscription.eventId s =? "e1")))
         (subscriptions d).
Proof.
  cbv zeta.
  pose proof (proj2 (DELETE_ignores_authorization
                       (mkRequest None
                          (mkPayload (Some "a@example.com") (Some "e1") None None))
                       (Some "Bearer anything")
                       (mkDB [] [Subscription.mk "s1" "a@example.com" "e1" None
                                   false None;
                                 Subscription.mk "s2" "b@example.com" "e1" None
                                   false None] []))
                "e1" eq_refl ltac:(discriminate)) as (H1 & H2 & _).
  split; [exact H1|].
  apply (H2 "a@example.com" eq_refl). discriminate.
Defined.

(* ===================================================================== *)
(** ** The notification flag and its time                                 *)
(* ===================================================================== *)

Section Preservation.
Variable P : DB -> Prop.

Lemma preserves_ret {A : Type} (a : A) : preserves P (ret a).
Proof. intros s H. exact H. Qed.

Lemma preserves_throw {A : Type} (e : Exn) : preserves P (@throw A e).
Proof. intros s H. exact H. Qed.

Lemma preserves_lift {A : Type} (r : Exn + A) : preserves P (lift r).
Proof. intros s H. exact H. Qed.

Lemma preserves_emit (e : Effect) : preserves P (emit e).
Proof. intros s H. exact H. Qed.

Lemma preserves_bind {A B : Type} (m : M A) (k : A -> M B) :
  preserves P m -> (forall a, preserves P (k a)) -> preserves P (bind m k).
Proof.
  intros Hm Hk s H. unfold bind. specialize (Hm s H).
  destruct (m s) as [[e|a] s']; simpl in *; [exact Hm|].
  apply Hk, Hm.
Qed.

Lemma preserves_try_catch {A : Type} (m : M A) (h : Exn -> M A) :
  preserves P m -> (forall e, preserves P (h e)) ->
  preserves P (try_catch m h).
Proof.
  intros Hm Hh s H. unfold try_catch. specialize (Hm s H).
  destruct (m s) as [[e|a] s']; simpl in *; [|exact Hm].
  apply Hh, Hm.
Qed.

Lemma preserves_mapM {A B : Type} (f : A -> M B) (l : list A) :
  (forall x, preserves P (f x)) -> preserves P (mapM f l).
Proof.
  intros Hf. induction l as [|x l IH]; simpl.
  - apply preserves_ret.
  - apply preserves_bind; [apply Hf|]. intros y.
    apply preserves_bind; [apply IH|]. intros ys. apply preserves_ret.
Qed.

Lemma preserves_when (c : bool) (m : M unit) :
  preserves P m -> preserves P (when_ c m).
Proof. intros H. destruct c; [exact H | apply preserves_ret]. Qed.

(** [d <- getDB ;; k d] where [k] only writes databases that satisfy
    [P] when [d] does. *)
Lemma preserves_getDB {A : Type} (k : DB -> M A) :
  (forall d s, st_db s = d -> P d -> P (st_db (snd (k d s)))) ->
  preserves P (bind getDB k).
Proof. intros Hk s H. unfold bind, getDB. apply Hk; [reflexivity | exact H]. Qed.
End Preservation.

Lemma In_map_cond {R : Type} (c : R -> bool) (f : R -> R) (l : list R) (x : R) :
  In x (map (fun r => if c r then f r else r) l) ->
  In x l \/ exists r, In r l /\ x = f r.
Proof.
  intros H. apply in_map_iff in H as (r & <- & Hr).
  destruct (c r); [right; exists r; auto | left; exact Hr].
Qed.

Lemma subscriptionUpdate_keeps (w : World) (i : string) (t : Z) :
  preserves notified_has_time (subscriptionUpdate w i t).
Proof.
  unfold subscriptionUpdate.
  apply preserves_bind; [apply preserves_emit|]. intros _.
  destruct (update_ok w EmailChannel i); [|apply preserves_throw].
  apply preserves_getDB. intros d s Hs [He Hp].
  destruct (existsb _ _); simpl; [|rewrite Hs; split; assumption].
  split; [|exact Hp].
  intros x Hx. apply In_map_cond in Hx as [Hx | (r & _ & ->)].
  - apply He, Hx.
  - discriminate.
Qed.

Lemma pushSubscriptionUpdate_keeps (w : World) (i : string) (t : Z) :
  preserves notified_has_time (pushSubscriptionUpdate w i t).
Proof.
  unfold pushSubscriptionUpdate.
  apply preserves_bind; [apply preserves_emit|]. intros _.
  destruct (update_ok w PushChannel i); [|apply preserves_throw].
  apply preserves_getDB. intros d s Hs [He Hp].
  destruct (existsb _ _); simpl; [|rewrite Hs; split; assumption].
  split; [exact He|].
  intros x Hx. apply In_map_cond in Hx as [Hx | (r & _ & ->)].
  - apply Hp, Hx.
  - discriminate.
Qed.

Lemma subscriptionUpsert_keeps (w : World) (email eventId : string)
    (c : option Z) :
  preserves notified_has_time (subscriptionUpsert w email eventId c).
Proof.
  unfold subscriptionUpsert.
  apply preserves_bind; [apply preserves_emit|]. intros _.
  apply preserves_getDB. intros d s Hs [He Hp]. simpl.
  split; [|exact Hp].
  intros x Hx. destruct (existsb _ _).
  - apply In_map_cond in Hx as [Hx | (r & _ & ->)]; [apply He, Hx|].
    simpl. discriminate.
  - apply in_app_iff in Hx as [Hx | [<- | []]]; [apply He, Hx|].
    simpl. discriminate.
Qed.

Lemma pushSubscriptionUpsert_keeps (w : World) (ps : PushSub)
    (eventId : string) (c : option Z) :
  preserves notified_has_time (pushSubscriptionUpsert w ps eventId c).
Proof.
  unfold pushSubscriptionUpsert.
  apply preserves_bind; [apply preserves_emit|]. intros _.
  apply preserves_getDB. intros d s Hs [He Hp]. simpl.
  split; [exact He|].
  intros x Hx. destruct (existsb _ _).
  - apply In_map_cond in Hx as [Hx | (r & _ & ->)]; [apply Hp, Hx|].
    simpl. discriminate.
  - apply in_app_iff in Hx as [Hx | [<- | []]]; [apply Hp, Hx|].
    simpl. discriminate.
Qed.

Lemma subscriptionDeleteMany_keeps (email eventId : string) :
  preserves notified_has_time (subscriptionDeleteMany email eventId).
Proof.
  unfold subscriptionDeleteMany.
  apply preserves_bind; [apply preserves_emit|]. intros _.
  apply preserves_getDB. intros d s Hs [He Hp]. simpl.
  split; [|exact Hp].
  intros x Hx. apply filter_In in Hx as [Hx _]. apply He, Hx.
Qed.

Lemma pushSubscriptionDeleteMany_keeps (endpoint eventId : string) :
  preserves notified_has_time (pushSubscriptionDeleteMany endpoint eventId).
Proof.
  unfold pushSubscriptionDeleteMany.
  apply preserves_bind; [apply preserves_emit|]. intros _.
  apply preserves_getDB. intros d s Hs [He Hp]. simpl.
  split; [exact He|].
  intros x Hx. apply filter_In in Hx as [Hx _]. apply Hp, Hx.
Qed.

Lemma findManySubscriptions_keeps (P : DB -> Prop) :
  preserves P findManySubscriptions.
Proof. intros s H. exact H. Qed.

Lemma findManyPushSubscriptions_keeps (P : DB -> Prop) :
  preserves P findManyPushSubscriptions.
Proof. intros s H. exact H. Qed.

Create HintDb keeps.
#[local] Hint Resolve preserves_ret preserves_throw preserves_lift
  preserves_emit preserves_when
  subscriptionUpdate_keeps pushSubscriptionUpdate_keeps
  subscriptionUpsert_keeps pushSubscriptionUpsert_keeps
  subscriptionDeleteMany_keeps pushSubscriptionDeleteMany_keeps
  findManySubscriptions_keeps findManyPushSubscriptions_keeps : keeps.

(** Walks through a handler: one rule of [preserves] per construct. *)
Ltac keeps_step :=
  first [ solve [auto with keeps]
        | apply preserves_try_catch; [|intros ?]
        | apply preserves_mapM; intros ?
        | apply preserves_bind; [|intros ?] ].

Lemma ensureVapidConfigured_keeps (P : DB -> Prop) (env : Env) :
  preserves P (ensureVapidConfigured env).
Proof.
  unfold ensureVapidConfigured.
  destruct (_ || _); auto with keeps.
Qed.

Lemma emailTask_keeps (env : Env) (w : World) (x : WithEvent Subscription.t) :
  preserves notified_has_time (emailTask env w x).
Proof.
  unfold emailTask, sgMail_send.
  repeat keeps_step.
  destruct (transport_ok _ _ _); auto with keeps.
Qed.

Lemma pushTask_keeps (env : Env) (w : World) (x : WithEvent PushSubscription.t) :
  preserves notified_has_time (pushTask env w x).
Proof.
  unfold pushTask, sendPush.
  repeat keeps_step.
  - apply ensureVapidConfigured_keeps.
  - destruct (transport_ok _ _ _); auto with keeps.
Qed.

#[local] Hint Resolve emailTask_keeps pushTask_keeps : keeps.

Lemma GET_keeps (env : Env) (w : World) (req : Request) :
  preserves notified_has_time (GET env w req).
Proof.
  unfold GET.
  destruct (_ || _); [auto with keeps|].
  destruct (_ || _); [auto with keeps|].
  repeat keeps_step.
Qed.

Lemma POST_keeps (w : World) (req : Request) :
  preserves notified_has_time (POST w req).
Proof.
  unfold POST.
  destruct (negb _); [auto with keeps|].
  apply preserves_bind; [auto with keeps|]. intros _.
  apply preserves_getDB. intros d s Hs H.
  destruct (findEvent d _); [|simpl; rewrite Hs; exact H].
  revert s Hs H.
  assert (Hk : preserves notified_has_time
                 (when_ (truthy (p_email (json req)))
                    (subscriptionUpsert w
                       (nullish_default (p_email (json req)) "")
                       (nullish_default (p_eventId (json req)) "")
                       (nullish (p_customOffsetMinutes (json req)) None)) ;;
                  match p_pushSubscription (json req) with
                  | Some ps =>
                      pushSubscriptionUpsert w ps
                        (nullish_default (p_eventId (json req)) "")
                        (nullish (p_customOffsetMinutes (json req)) None)
                  | None => ret tt
                  end ;;
                  ret (mkResponse 200 OkBody))).
  { repeat keeps_step. destruct (p_pushSubscription (json req)); auto with keeps. }
  intros s Hs H. apply Hk. rewrite Hs. exact H.
Qed.

Lemma DELETE_keeps (req : Request) :
  preserves notified_has_time (DELETE req).
Proof.
  unfold DELETE.
  destruct (negb _); [auto with keeps|].
  repeat keeps_step.
Qed.

Lemma apply_op_keeps (op : Operation) (d : DB) :
  notified_has_time d -> notified_has_time (apply_op op d).
Proof.
  intros H. destruct op as [env w req | w req | req | evs k kp]; simpl.
  - unfold final_db, run.
    pose proof (GET_keeps env w req (mkSt d []) H) as Hk.
    destruct (GET env w req (mkSt d [])) as [r s]. exact Hk.
  - unfold final_db, run.
    pose proof (POST_keeps w req (mkSt d []) H) as Hk.
    destruct (POST w req (mkSt d [])) as [r s]. exact Hk.
  - unfold final_db, run.
    pose proof (DELETE_keeps req (mkSt d []) H) as Hk.
    destruct (DELETE req (mkSt d [])) as [r s]. exact Hk.
  - destruct H as [He Hp]. split; simpl; intros x Hx;
      apply filter_In in Hx as [Hx _]; [apply He | apply Hp]; exact Hx.
Qed.

(** C9. A row with [notified = true] has its [notifiedAt], in every state
    the application can reach: the property holds when there are no
    subscriptions and each operation keeps it.  The dispatcher writes the
    flag and the time in one update, and an upsert leaves the rows of its
    key with [notified = false] and [notifiedAt] null. *)
Theorem notified_implies_notifiedAt :
  (forall (op : Operation) (d : DB),
      notified_has_time d -> notified_has_time (apply_op op d))
  /\ (forall d : DB, reachable d -> notified_has_time d)
  /\ (forall (t : Z) (s : Subscription.t) (p : PushSubscription.t),
        Subscription.notified (Subscription.markNotified t s) = true
        /\ Subscription.notifiedAt (Subscription.markNotified t s) = Some t
        /\ PushSubscription.notified (PushSubscription.markNotified t p) = true
        /\ PushSubscription.notifiedAt (PushSubscription.markNotified t p)
           = Some t)
  /\ (forall (w : World) (email eventId : string) (c : option Z) (d : DB)
             (s : Subscription.t),
        In s (subscriptions
                (final_db (run (subscriptionUpsert w email eventId c) d))) ->
        Subscription.email s = email -> Subscription.eventId s = eventId ->
        Subscription.notified s = false /\ Subscription.notifiedAt s = None)
  /\ (forall (w : World) (ps : PushSub) (eventId : string) (c : option Z)
             (d : DB) (s : PushSubscription.t),
        In s (pushSubscriptions
                (final_db (run (pushSubscriptionUpsert w ps eventId c) d))) ->
        PushSubscription.endpoint s = sub_endpoint ps ->
        PushSubscription.eventId s = eventId ->
        PushSubscription.notified s = false
        /\ PushSubscription.notifiedAt s = None).
Proof.
  split; [exact apply_op_keeps|]. split; [|split; [|split]].
  - intros d Hr. induction Hr as [evs | op d _ IH].
    + split; intros s [].
    + apply apply_op_keeps, IH.
  - intros t s p. repeat split.
  - intros w email eventId c d s Hin Hem Hev.
    unfold final_db, run, subscriptionUpsert in Hin. simpl in Hin.
    destruct (existsb _ (subscriptions d)) eqn:Hex.
    + apply in_map_iff in Hin as (r & <- & Hr).
      destruct ((Subscription.email r =? email)
                && (Subscription.eventId r =? eventId)) eqn:Hsame.
      * split; reflexivity.
      * exfalso. rewrite Hem, Hev, !String.eqb_refl in Hsame. discriminate.
    + apply in_app_iff in Hin as [Hin | [<- | []]]; [|split; reflexivity].
      exfalso.
      assert (Ht : existsb
                     (fun s0 => (Subscription.email s0 =? email)
                                && (Subscription.eventId s0 =? eventId))
                     (subscriptions d) = true).
      { apply existsb_exists. exists s. split; [exact Hin|].
        rewrite Hem, Hev, !String.eqb_refl. reflexivity. }
      rewrite Ht in Hex. discriminate.
  - intros w ps eventId c d s Hin Hen Hev.
    unfold final_db, run, pushSubscriptionUpsert in Hin. simpl in Hin.
    destruct (existsb _ (pushSubscriptions d)) eqn:Hex.
    + apply in_map_iff in Hin as (r & <- & Hr).
      destruct ((PushSubscription.endpoint r =? sub_endpoint ps)
                && (PushSubscription.eventId r =? eventId)) eqn:Hsame.
      * split; reflexivity.
      * exfalso. simpl in Hen, Hev.
        rewrite Hen, Hev, !String.eqb_refl in Hsame. discriminate.
    + apply in_app_iff in Hin as [Hin | [<- | []]]; [|split; reflexivity].
      exfalso.
      assert (Ht : existsb
                     (fun s0 => (PushSubscription.endpoint s0 =? sub_endpoint ps)
                                && (PushSubscription.eventId s0 =? eventId))
                     (pushSubscriptions d) = true).
      { apply existsb_exists. exists s. split; [exact Hin|].
        rewrite Hen, Hev, !String.eqb_refl. reflexivity. }
      rewrite Ht in Hex. discriminate.
Qed.

Lemma notified_implies_notifiedAt_witness :
  let ev := Event.mk "e1" "Weekly Practice Round" 1738350000000 1738357200000
              "Zoom Room A" true (Some "https://example.com/zoom/practice-a")
              "practice" "Impromptu BP practice." None (Some 60%Z) None false in
  let env := mkEnv (Some "s3cret") (Some "SG.key") (Some "club@example.com")
               None None None in
  let w := mkWorld 1738348200000 (fun _ _ => true) (fun _ _ => true)
             (fun _ _ => 1738348200123%Z) (fun _ => "sub-1") in
  let subscribe :=
    Subscribe w (mkRequest None
                   (mkPayload (Some "a@example.com") (Some "e1") None None)) in
  let dispatch :=
    Dispatch env w (mkRequest (Some "Bearer s3cret")
                      (mkPayload None None None None)) in
  notified_has_time (apply_op dispatch (apply_op subscribe (mkDB [ev] [] []))).
Proof.
  cbv zeta.
  apply (proj1 (proj2 notified_implies_notifiedAt)).
  apply reachable_step, reachable_step, reachable_init.
Defined.

(* ===================================================================== *)
(** ** References to events                                               *)
(* ===================================================================== *)

(** The dispatcher and the subscription endpoints never leave a
    subscription without its event: [POST] looks the event up before it
    writes, and the others neither touch the [Event] table nor the
    [eventId] of a row.  Only the deletion of an event could, and what that
    does to its subscriptions is decided by the schema. *)

Lemma subscriptionUpdate_refs (w : World) (i : string) (t : Z) :
  preserves referenced (subscriptionUpdate w i t).
Proof.
  unfold subscriptionUpdate.
  apply preserves_bind; [apply preserves_emit|]. intros _.
  destruct (update_ok w EmailChannel i); [|apply preserves_throw].
  apply preserves_getDB. intros d s Hs [He Hp].
  destruct (existsb _ _); cbn [putDB throw snd st_db];
    [|rewrite Hs; split; assumption].
  split; [|exact Hp].
  intros x Hx. cbn [subscriptions] in Hx.
  apply In_map_cond in Hx as [Hx | (r & Hr & ->)];
    [apply He, Hx | apply (He r Hr)].
Qed.

Lemma pushSubscriptionUpdate_refs (w : World) (i : string) (t : Z) :
  preserves referenced (pushSubscriptionUpdate w i t).
Proof.
  unfold pushSubscriptionUpdate.
  apply preserves_bind; [apply preserves_emit|]. intros _.
  destruct (update_ok w PushChannel i); [|apply preserves_throw].
  apply preserves_getDB. intros d s Hs [He Hp].
  destruct (existsb _ _); cbn [putDB throw snd st_db];
    [|rewrite Hs; split; assumption].
  split; [exact He|].
  intros x Hx. cbn [pushSubscriptions] in Hx.
  apply In_map_cond in Hx as [Hx | (r & Hr & ->)];
    [apply Hp, Hx | apply (Hp r Hr)].
Qed.

Lemma subscriptionDeleteMany_refs (email eventId : string) :
  preserves referenced (subscriptionDeleteMany email eventId).
Proof.
  unfold subscriptionDeleteMany.
  apply preserves_bind; [apply preserves_emit|]. intros _.
  apply preserves_getDB. intros d s Hs [He Hp]. cbn [putDB snd st_db].
  split; [|exact Hp].
  intros x Hx. apply filter_In in Hx as [Hx _]. apply He, Hx.
Qed.

Lemma pushSubscriptionDeleteMany_refs (endpoint eventId : string) :
  preserves referenced (pushSubscriptionDeleteMany endpoint eventId).
Proof.
  unfold pushSubscriptionDeleteMany.
  apply preserves_bind; [apply preserves_emit|]. intros _.
  apply preserves_getDB. intros d s Hs [He Hp]. cbn [putDB snd st_db].
  split; [exact He|].
  intros x Hx. apply filter_In in Hx as [Hx _]. apply Hp, Hx.
Qed.

(** An upsert for an event that is there. *)
Lemma subscriptionUpsert_refs (w : World) (email eventId : string)
    (c : option Z) :
  preserves (fun d => referenced d /\ isSome (findEvent d eventId) = true)
    (subscriptionUpsert w email eventId c).
Proof.
  unfold subscriptionUpsert.
  apply preserves_bind; [apply preserves_emit|]. intros _.
  apply preserves_getDB. intros d s Hs [[He Hp] Hev]. cbn [putDB snd st_db].
  split; [|exact Hev]. split; [|exact Hp].
  intros x Hx. cbn [subscriptions] in Hx. destruct (existsb _ _).
  - apply in_map_iff in Hx as (r & <- & Hr).
    destruct (_ && _); apply (He r Hr).
  - apply in_app_iff in Hx as [Hx | [<- | []]]; [apply He, Hx | exact Hev].
Qed.

Lemma pushSubscriptionUpsert_refs (w : World) (ps : PushSub)
    (eventId : string) (c : option Z) :
  preserves (fun d => referenced d /\ isSome (findEvent d eventId) = true)
    (pushSubscriptionUpsert w ps eventId c).
Proof.
  unfold pushSubscriptionUpsert.
  apply preserves_bind; [apply preserves_emit|]. intros _.
  apply preserves_getDB. intros d s Hs [[He Hp] Hev]. cbn [putDB snd st_db].
  split; [|exact Hev]. split; [exact He|].
  intros x Hx. cbn [pushSubscriptions] in Hx. destruct (existsb _ _).
  - apply in_map_iff in Hx as (r & <- & Hr).
    destruct (_ && _); apply (Hp r Hr).
  - apply in_app_iff in Hx as [Hx | [<- | []]]; [apply Hp, Hx | exact Hev].
Qed.

#[local] Hint Resolve subscriptionUpdate_refs pushSubscriptionUpdate_refs
  subscriptionDeleteMany_refs pushSubscriptionDeleteMany_refs
  subscriptionUpsert_refs pushSubscriptionUpsert_refs : keeps.

Lemma GET_refs (env : Env) (w : World) (req : Request) :
  preserves referenced (GET env w req).
Proof.
  unfold GET.
  destruct (_ || _); [auto with keeps|].
  destruct (_ || _); [auto with keeps|].
  unfold emailTask, pushTask, sgMail_send, sendPush.
  repeat keeps_step.
  - destruct (transport_ok _ _ _); auto with keeps.
  - apply ensureVapidConfigured_keeps.
  - destruct (transport_ok _ _ _); auto with keeps.
Qed.

Lemma POST_refs (w : World) (req : Request) :
  preserves referenced (POST w req).
Proof.
  unfold POST.
  destruct (negb _); [auto with keeps|].
  apply preserves_bind; [auto with keeps|]. intros _.
  apply preserves_getDB. intros d s Hs H.
  destruct (findEvent d _) eqn:Hf; [|simpl; rewrite Hs; exact H].
  revert s Hs.
  assert (Hk : preserves
                 (fun d => referenced d
                           /\ isSome (findEvent d
                                        (nullish_default (p_eventId (json req)) ""))
                              = true)
                 (when_ (truthy (p_email (json req)))
                    (subscriptionUpsert w
                       (nullish_default (p_email (json req)) "")
                       (nullish_default (p_eventId (json req)) "")
                       (nullish (p_customOffsetMinutes (json req)) None)) ;;
                  match p_pushSubscription (json req) with
                  | Some ps =>
                      pushSubscriptionUpsert w ps
                        (nullish_default (p_eventId (json req)) "")
                        (nullish (p_customOffsetMinutes (json req)) None)
                  | None => ret tt
                  end ;;
                  ret (mkResponse 200 OkBody))).
  { repeat keeps_step. destruct (p_pushSubscription (json req)); auto with keeps. }
  intros s Hs. apply Hk. rewrite Hs. split; [exact H|]. rewrite Hf. reflexivity.
Qed.

Lemma DELETE_refs (req : Request) :
  preserves referenced (DELETE req).
Proof.
  unfold DELETE.
  destruct (negb _); [auto with keeps|].
  repeat keeps_step.
Qed.

(** From a database without subscriptions, any sequence of runs of the
    dispatcher, subscriptions and cancellations leaves every subscription
    with its event, and the dispatcher then finds every pending one
    [intact]. *)
Lemma referenced_intact (d : DB) : referenced d -> intact d = true.
Proof.
  intros [He Hp]. unfold intact. apply andb_true_iff. split; apply forallb_forall.
  - intros x Hx. unfold pendingEmail in Hx.
    apply in_map_iff in Hx as (r & <- & Hr). apply filter_In in Hr as [Hr _].
    apply He, Hr.
  - intros x Hx. unfold pendingPush in Hx.
    apply in_map_iff in Hx as (r & <- & Hr). apply filter_In in Hr as [Hr _].
    apply Hp, Hr.
Qed.

Lemma handlers_keep_references (op : Operation) (d : DB) :
  (forall evs keep keepPush, op <> Administer evs keep keepPush) ->
  referenced d -> referenced (apply_op op d).
Proof.
  intros Hop H. destruct op as [env w req | w req | req | evs k kp]; simpl.
  - unfold final_db, run.
    pose proof (GET_refs env w req (mkSt d []) H) as Hk.
    destruct (GET env w req (mkSt d [])) as [r s]. exact Hk.
  - unfold final_db, run.
    pose proof (POST_refs w req (mkSt d []) H) as Hk.
    destruct (POST w req (mkSt d [])) as [r s]. exact Hk.
  - unfold final_db, run.
    pose proof (DELETE_refs req (mkSt d []) H) as Hk.
    destruct (DELETE req (mkSt d [])) as [r s]. exact Hk.
  - exfalso. exact (Hop evs k kp eq_refl).
Qed.

(* ===================================================================== *)
(** ** What a run of the dispatcher does                                  *)
(* ===================================================================== *)

Section Table.
Context {R : Type} (key : R -> string) (mark : Z -> R -> R).
Hypothesis key_mark : forall t r, key (mark t r) = key r.
Hypothesis mark_mark : forall t r, mark t (mark t r) = mark t r.
Variable stamp : string -> Z.

Lemma markIds_nil (tbl : list R) : markIds key mark stamp [] tbl = tbl.
Proof. unfold markIds. simpl. apply map_id. Qed.

Lemma keys_markIds (ids : list string) (tbl : list R) :
  map key (markIds key mark stamp ids tbl) = map key tbl.
Proof.
  unfold markIds. rewrite map_map. apply map_ext. intros r.
  destruct (existsb _ ids); [apply key_mark | reflexivity].
Qed.

Lemma existsb_key_markIds (i : string) (ids : list string) (tbl : list R) :
  existsb (fun r => key r =? i) (markIds key mark stamp ids tbl)
  = existsb (fun r => key r =? i) tbl.
Proof.
  unfold markIds. induction tbl as [|r tbl IH]; simpl; [reflexivity|].
  rewrite IH. f_equal.
  destruct (existsb _ ids); [rewrite key_mark|]; reflexivity.
Qed.

Lemma update_markIds (i : string) (ids : list string) (tbl : list R) :
  map (fun r => if key r =? i then mark (stamp i) r else r)
    (markIds key mark stamp ids tbl)
  = markIds key mark stamp (i :: ids) tbl.
Proof.
  unfold markIds. rewrite map_map. apply map_ext. intros r. simpl.
  destruct (existsb (String.eqb (key r)) ids) eqn:E.
  - rewrite key_mark, orb_true_r.
    destruct (String.eqb_spec (key r) i) as [<-|]; [apply mark_mark | reflexivity].
  - rewrite orb_false_r.
    destruct (String.eqb_spec (key r) i) as [<-|]; reflexivity.
Qed.

Lemma markIds_ext (ids ids' : list string) (tbl : list R) :
  (forall i, In i ids <-> In i ids') ->
  markIds key mark stamp ids tbl = markIds key mark stamp ids' tbl.
Proof.
  intros H. unfold markIds. apply map_ext. intros r.
  assert (E : existsb (String.eqb (key r)) ids
              = existsb (String.eqb (key r)) ids').
  { apply eq_true_iff_eq. rewrite !existsb_exists.
    split; intros (j & Hj & Hk); exists j; (split; [apply H, Hj | exact Hk]). }
  rewrite E. reflexivity.
Qed.

Lemma In_markIds (ids : list string) (tbl : list R) (r' : R) :
  In r' (markIds key mark stamp ids tbl) ->
  exists r, In r tbl /\ key r = key r'
            /\ ((In (key r) ids /\ r' = mark (stamp (key r)) r)
                \/ (~ In (key r) ids /\ r' = r)).
Proof.
  unfold markIds. intros H. apply in_map_iff in H as (r & <- & Hr).
  exists r. split; [exact Hr|].
  destruct (existsb (String.eqb (key r)) ids) eqn:E.
  - split; [symmetry; apply key_mark|]. left. split; [|reflexivity].
    apply existsb_exists in E as (j & Hj & Hk).
    apply String.eqb_eq in Hk. subst j. exact Hj.
  - split; [reflexivity|]. right. split; [|reflexivity].
    intros Hin.
    assert (Ht : existsb (String.eqb (key r)) ids = true).
    { apply existsb_exists. exists (key r). split; [exact Hin|apply String.eqb_refl]. }
    rewrite Ht in E. discriminate.
Qed.
End Table.

Lemma filterE_total {A : Type} (f : A -> Exn + bool) (l : list A) :
  (forall x, In x l -> exists b, f x = inr b) ->
  filterE f l
  = inr (filter (fun x => match f x with inr b => b | inl _ => false end) l).
Proof.
  induction l as [|x l IH]; intros H; simpl; [reflexivity|].
  destruct (H x (or_introl eq_refl)) as [b ->].
  rewrite IH by (intros y Hy; apply H; right; exact Hy).
  destruct b; reflexivity.
Qed.

Lemma filterE_throws {A : Type} (f : A -> Exn + bool) (l : list A) (x : A) :
  In x l -> (exists e, f x = inl e) -> exists e, filterE f l = inl e.
Proof.
  induction l as [|y l IH]; intros Hin Hx; [destruct Hin|]; simpl.
  destruct (f y) as [e|b] eqn:Hy; [exists e; reflexivity|].
  destruct Hin as [->|Hin].
  - destruct Hx as [e He]. rewrite He in Hy. discriminate.
  - destruct (IH Hin Hx) as [e ->]. exists e. reflexivity.
Qed.

Lemma dueCallback_null (now : Z) (custom : option Z) :
  exists e, dueCallback now custom None = inl e.
Proof. destruct custom; simpl; eexists; reflexivity. Qed.

Lemma dueCallback_answers (now : Z) (custom : option Z) (ev : option Event.t) :
  isSome ev = true -> exists b, dueCallback now custom ev = inr b.
Proof.
  destruct ev as [ev|]; [|discriminate]. intros _.
  rewrite dueCallback_eq. eexists; reflexivity.
Qed.

Lemma countStatus_results (env : Env) (w : World) (c : Channel)
    {A : Type} (key : A -> string) (l : list A) :
  countStatus isSent (map (fun x => resultOf env w c (key x)) l)
  = List.length (filter (fun x => delivers env w c (key x)) l)
  /\ countStatus isFailed (map (fun x => resultOf env w c (key x)) l)
     = List.length (filter (fun x => negb (delivers env w c (key x))) l).
Proof.
  unfold countStatus, resultOf.
  induction l as [|x l [IH1 IH2]]; simpl; [split; reflexivity|].
  destruct (delivers env w c (key x)); simpl; rewrite ?IH1, ?IH2; split; reflexivity.
Qed.

(** One email delivery, run on a table that has the row. *)
Lemma emailTask_run (env : Env) (w : World) (x : WithEvent Subscription.t)
    (evs : list Event.t) (tbl : list Subscription.t)
    (push : list PushSubscription.t) (tr : list Effect) :
  isSome (event x) = true ->
  existsb (fun s => Subscription.id s =? Subscription.id (row x)) tbl = true ->
  emailTask env w x (mkSt (mkDB evs tbl push) tr)
  = (inr (resultOf env w EmailChannel (Subscription.id (row x))),
     mkSt (mkDB evs
             (if delivers env w EmailChannel (Subscription.id (row x))
              then map (fun s =>
                          if Subscription.id s =? Subscription.id (row x)
                          then Subscription.markNotified
                                 (update_time w EmailChannel
                                    (Subscription.id (row x))) s
                          else s) tbl
              else tbl)
             push)
       (tr ++ emailEffects env w x)).
Proof.
  intros Hev Hex.
  unfold emailTask, emailEffects, resultOf, delivers, accepts.
  destruct (event x) as [ev|]; [|discriminate].
  unfold bind, try_catch, lift, deref, sgMail_send, subscriptionUpdate, emit,
    getDB, putDB, ret, throw, bind.
  destruct (transport_ok w EmailChannel (Subscription.id (row x)));
    cbn [andb st_db st_trace subscriptions events pushSubscriptions];
    [|rewrite <- !app_assoc; reflexivity].
  destruct (update_ok w EmailChannel (Subscription.id (row x)));
    cbn [st_db st_trace subscriptions events pushSubscriptions].
  - rewrite Hex. cbn [st_db st_trace]. rewrite <- !app_assoc. reflexivity.
  - rewrite <- !app_assoc. reflexivity.
Qed.

(** One push delivery, run on a table that has the row. *)
Lemma pushTask_run (env : Env) (w : World) (x : WithEvent PushSubscription.t)
    (evs : list Event.t) (tbl : list Subscription.t)
    (push : list PushSubscription.t) (tr : list Effect) :
  isSome (event x) = true ->
  existsb (fun s => PushSubscription.id s =? PushSubscription.id (row x)) push
  = true ->
  pushTask env w x (mkSt (mkDB evs tbl push) tr)
  = (inr (resultOf env w PushChannel (PushSubscription.id (row x))),
     mkSt (mkDB evs tbl
             (if delivers env w PushChannel (PushSubscription.id (row x))
              then map (fun s =>
                          if PushSubscription.id s =? PushSubscription.id (row x)
                          then PushSubscription.markNotified
                                 (update_time w PushChannel
                                    (PushSubscription.id (row x))) s
                          else s) push
              else push))
       (tr ++ pushEffects env w x)).
Proof.
  intros Hev Hex.
  unfold pushTask, pushEffects, resultOf, delivers, accepts, vapidConfigured.
  destruct (event x) as [ev|]; [|discriminate].
  unfold bind, try_catch, lift, deref, sendPush, ensureVapidConfigured,
    pushSubscriptionUpdate, emit, getDB, putDB, ret, throw, bind.
  destruct (truthy (NEXT_PUBLIC_VAPID_PUBLIC_KEY env));
    destruct (truthy (VAPID_PRIVATE_KEY env));
    cbn [negb orb andb st_db st_trace];
    try (rewrite <- ?app_assoc; reflexivity).
  destruct (transport_ok w PushChannel (PushSubscription.id (row x)));
    cbn [andb st_db st_trace subscriptions events pushSubscriptions];
    [|rewrite <- !app_assoc; reflexivity].
  destruct (update_ok w PushChannel (PushSubscription.id (row x)));
    cbn [st_db st_trace subscriptions events pushSubscriptions].
  - rewrite Hex. cbn [st_db st_trace]. rewrite <- !app_assoc. reflexivity.
  - rewrite <- !app_assoc. reflexivity.
Qed.

Lemma mapM_emailTask (env : Env) (w : World)
    (evs : list Event.t) (tbl0 : list Subscription.t)
    (push : list PushSubscription.t) (l : list (WithEvent Subscription.t)) :
  forall (ids : list string) (tr : list Effect),
    (forall x, In x l -> isSome (event x) = true) ->
    (forall x, In x l ->
       existsb (fun s => Subscription.id s =? Subscription.id (row x)) tbl0
       = true) ->
    mapM (emailTask env w) l
      (mkSt (mkDB evs
               (markIds Subscription.id Subscription.markNotified
                  (update_time w EmailChannel) ids tbl0) push) tr)
    = (inr (map (fun x => resultOf env w EmailChannel (Subscription.id (row x))) l),
       mkSt (mkDB evs
               (markIds Subscription.id Subscription.markNotified
                  (update_time w EmailChannel)
                  (rev (map (fun x => Subscription.id (row x))
                          (filter (fun x => delivers env w EmailChannel
                                              (Subscription.id (row x))) l))
                   ++ ids) tbl0) push)
         (tr ++ flat_map (emailEffects env w) l)).
Proof.
  induction l as [|x l IH]; intros ids tr Hev Hex.
  - simpl. rewrite app_nil_r. reflexivity.
  - cbn [mapM]. unfold bind at 1.
    rewrite emailTask_run;
      [| apply Hev; left; reflexivity
       | rewrite existsb_key_markIds; [apply Hex; left; reflexivity | reflexivity]].
    cbn [filter flat_map map].
    destruct (delivers env w EmailChannel (Subscription.id (row x))).
    + rewrite update_markIds; [|reflexivity|reflexivity].
      unfold bind. rewrite IH; [| intros y Hy; apply Hev; right; exact Hy
                                 | intros y Hy; apply Hex; right; exact Hy].
      cbn [map rev ret]. rewrite <- !app_assoc. reflexivity.
    + unfold bind. rewrite IH; [| intros y Hy; apply Hev; right; exact Hy
                                 | intros y Hy; apply Hex; right; exact Hy].
      cbn [ret]. rewrite <- !app_assoc. reflexivity.
Qed.

Lemma mapM_pushTask (env : Env) (w : World)
    (evs : list Event.t) (tbl : list Subscription.t)
    (push0 : list PushSubscription.t) (l : list (WithEvent PushSubscription.t)) :
  forall (ids : list string) (tr : list Effect),
    (forall x, In x l -> isSome (event x) = true) ->
    (forall x, In x l ->
       existsb (fun s => PushSubscription.id s =? PushSubscription.id (row x))
         push0 = true) ->
    mapM (pushTask env w) l
      (mkSt (mkDB evs tbl
               (markIds PushSubscription.id PushSubscription.markNotified
                  (update_time w PushChannel) ids push0)) tr)
    = (inr (map (fun x => resultOf env w PushChannel
                            (PushSubscription.id (row x))) l),
       mkSt (mkDB evs tbl
               (markIds PushSubscription.id PushSubscription.markNotified
                  (update_time w PushChannel)
                  (rev (map (fun x => PushSubscription.id (row x))
                          (filter (fun x => delivers env w PushChannel
                                              (PushSubscription.id (row x))) l))
                   ++ ids) push0))
         (tr ++ flat_map (pushEffects env w) l)).
Proof.
  induction l as [|x l IH]; intros ids tr Hev Hex.
  - simpl. rewrite app_nil_r. reflexivity.
  - cbn [mapM]. unfold bind at 1.
    rewrite pushTask_run;
      [| apply Hev; left; reflexivity
       | rewrite existsb_key_markIds; [apply Hex; left; reflexivity | reflexivity]].
    cbn [filter flat_map map].
    destruct (delivers env w PushChannel (PushSubscription.id (row x))).
    + rewrite update_markIds; [|reflexivity|reflexivity].
      unfold bind. rewrite IH; [| intros y Hy; apply Hev; right; exact Hy
                                 | intros y Hy; apply Hex; right; exact Hy].
      cbn [map rev ret]. rewrite <- !app_assoc. reflexivity.
    + unfold bind. rewrite IH; [| intros y Hy; apply Hev; right; exact Hy
                                 | intros y Hy; apply Hex; right; exact Hy].
      cbn [ret]. rewrite <- !app_assoc. reflexivity.
Qed.

Lemma In_rev_iff {A : Type} (l : list A) (i : A) : In i (rev l ++ []) <-> In i l.
Proof. rewrite app_nil_r. symmetry. apply in_rev. Qed.

Lemma mapM_emailTask_start (env : Env) (w : World) (d : DB)
    (l : list (WithEvent Subscription.t)) (tr : list Effect) :
  (forall x, In x l -> isSome (event x) = true) ->
  (forall x, In x l ->
     existsb (fun s => Subscription.id s =? Subscription.id (row x))
       (subscriptions d) = true) ->
  mapM (emailTask env w) l (mkSt d tr)
  = (inr (map (fun x => resultOf env w EmailChannel (Subscription.id (row x))) l),
     mkSt (mkDB (events d)
             (markIds Subscription.id Subscription.markNotified
                (update_time w EmailChannel)
                (map (fun x => Subscription.id (row x))
                   (filter (fun x => delivers env w EmailChannel
                                       (Subscription.id (row x))) l))
                (subscriptions d))
             (pushSubscriptions d))
       (tr ++ flat_map (emailEffects env w) l)).
Proof.
  intros Hev Hex. destruct d as [evs subs pushs].
  pose proof (mapM_emailTask env w evs subs pushs l [] tr Hev Hex) as E.
  rewrite markIds_nil in E. rewrite E. cbn [events subscriptions pushSubscriptions].
  do 3 f_equal. apply markIds_ext. intros i. apply In_rev_iff.
Qed.

Lemma mapM_pushTask_start (env : Env) (w : World) (d : DB)
    (l : list (WithEvent PushSubscription.t)) (tr : list Effect) :
  (forall x, In x l -> isSome (event x) = true) ->
  (forall x, In x l ->
     existsb (fun s => PushSubscription.id s =? PushSubscription.id (row x))
       (pushSubscriptions d) = true) ->
  mapM (pushTask env w) l (mkSt d tr)
  = (inr (map (fun x => resultOf env w PushChannel
                          (PushSubscription.id (row x))) l),
     mkSt (mkDB (events d) (subscriptions d)
             (markIds PushSubscription.id PushSubscription.markNotified
                (update_time w PushChannel)
                (map (fun x => PushSubscription.id (row x))
                   (filter (fun x => delivers env w PushChannel
                                       (PushSubscription.id (row x))) l))
                (pushSubscriptions d)))
       (tr ++ flat_map (pushEffects env w) l)).
Proof.
  intros Hev Hex. destruct d as [evs subs pushs].
  pose proof (mapM_pushTask env w evs subs pushs l [] tr Hev Hex) as E.
  rewrite markIds_nil in E. rewrite E. cbn [events subscriptions pushSubscriptions].
  do 3 f_equal. apply markIds_ext. intros i. apply In_rev_iff.
Qed.

Lemma pendingEmail_in_table (d : DB) (x : WithEvent Subscription.t) :
  In x (pendingEmail d) ->
  In (row x) (subscriptions d)
  /\ Subscription.notified (row x) = false
  /\ event x = findEvent d (Subscription.eventId (row x)).
Proof.
  unfold pendingEmail. intros H.
  apply in_map_iff in H as (s & <- & Hs). apply filter_In in Hs as [Hs Hn].
  simpl. repeat split; [exact Hs|]. apply negb_true_iff, Hn.
Qed.

Lemma pendingPush_in_table (d : DB) (x : WithEvent PushSubscription.t) :
  In x (pendingPush d) ->
  In (row x) (pushSubscriptions d)
  /\ PushSubscription.notified (row x) = false
  /\ event x = findEvent d (PushSubscription.eventId (row x)).
Proof.
  unfold pendingPush. intros H.
  apply in_map_iff in H as (s & <- & Hs). apply filter_In in Hs as [Hs Hn].
  simpl. repeat split; [exact Hs|]. apply negb_true_iff, Hn.
Qed.

Lemma existsb_key_In {R : Type} (key : R -> string) (r : R) (tbl : list R) :
  In r tbl -> existsb (fun s => key s =? key r) tbl = true.
Proof.
  intros H. apply existsb_exists. exists r. split; [exact H | apply String.eqb_refl].
Qed.


(** The run of the dispatcher on a request that passes both guards, over a
    database in which every pending subscription has its event: every due
    subscription is attempted, those whose delivery goes through (message
    taken, update written) are marked and counted as sent, and the others
    are counted as failed. *)
Lemma GET_run (env : Env) (w : World) (req : Request) (d : DB) :
  configured env = true -> authorized env req = true -> intact d = true ->
  run (GET env w req) d
  = (inr (mkResponse 200
            (CountsBody
               (List.length (dueEmail (now w) d)
                + List.length (duePush (now w) d))%nat
               (List.length
                  (filter (fun x => delivers env w EmailChannel
                                      (Subscription.id (row x)))
                     (dueEmail (now w) d))
                + List.length
                    (filter (fun x => delivers env w PushChannel
                                        (PushSubscription.id (row x)))
                       (duePush (now w) d)))%nat
               (List.length
                  (filter (fun x => negb (delivers env w EmailChannel
                                            (Subscription.id (row x))))
                     (dueEmail (now w) d))
                + List.length
                    (filter (fun x => negb (delivers env w PushChannel
                                              (PushSubscription.id (row x))))
                       (duePush (now w) d)))%nat)),
     mkDB (events d)
       (markIds Subscription.id Subscription.markNotified
          (update_time w EmailChannel) (sentEmailIds env w d) (subscriptions d))
       (markIds PushSubscription.id PushSubscription.markNotified
          (update_time w PushChannel) (sentPushIds env w d)
          (pushSubscriptions d)),
     SgSetApiKey (nullish_default (SENDGRID_API_KEY env) "")
     :: FindManySubscriptions :: FindManyPushSubscriptions
     :: flat_map (emailEffects env w) (dueEmail (now w) d)
        ++ flat_map (pushEffects env w) (duePush (now w) d)).
Proof.
  intros Hc Ha Hi. unfold run, GET.
  rewrite config_guard_eq, Hc. cbn [negb].
  rewrite (auth_guard_eq env req Hc), Ha. cbn [negb].
  apply andb_true_iff in Hi as [Hie Hip].
  rewrite forallb_forall in Hie, Hip.
  assert (Hde : forall x, In x (dueEmail (now w) d) -> In x (pendingEmail d)).
  { intros x Hx. apply filter_In in Hx as [Hx _]. exact Hx. }
  assert (Hdp : forall x, In x (duePush (now w) d) -> In x (pendingPush d)).
  { intros x Hx. apply filter_In in Hx as [Hx _]. exact Hx. }
  unfold bind at 1. cbn [emit st_db st_trace app].
  unfold bind at 1. unfold findManySubscriptions at 1.
  unfold bind at 1. cbn [emit st_db st_trace app].
  unfold bind at 1. cbn [getDB ret st_db st_trace].
  fold (pendingEmail d).
  unfold bind at 1. unfold findManyPushSubscriptions at 1.
  unfold bind at 1. cbn [emit st_db st_trace app].
  unfold bind at 1. cbn [getDB ret st_db st_trace].
  fold (pendingPush d).
  unfold bind at 1. unfold lift at 1.
  rewrite filterE_total
    by (intros x Hx; apply dueCallback_answers, Hie, Hx).
  change (filter _ (pendingEmail d)) with (dueEmail (now w) d).
  unfold bind at 1. unfold lift at 1.
  rewrite filterE_total
    by (intros x Hx; apply dueCallback_answers, Hip, Hx).
  change (filter _ (pendingPush d)) with (duePush (now w) d).
  unfold bind at 1.
  rewrite mapM_emailTask_start;
    [| intros x Hx; apply Hie, Hde, Hx
     | intros x Hx; apply (existsb_key_In Subscription.id),
                      (pendingEmail_in_table _ _ (Hde x Hx))].
  unfold bind at 1.
  rewrite mapM_pushTask_start;
    [| intros x Hx; apply Hip, Hdp, Hx
     | intros x Hx; apply (existsb_key_In PushSubscription.id),
                      (pendingPush_in_table _ _ (Hdp x Hx))].
  cbn [events subscriptions pushSubscriptions].
  cbn [ret st_db st_trace].
  rewrite !length_map.
  destruct (countStatus_results env w EmailChannel
              (fun x : WithEvent Subscription.t => Subscription.id (row x))
              (dueEmail (now w) d)) as [-> ->].
  destruct (countStatus_results env w PushChannel
              (fun x : WithEvent PushSubscription.t =>
                 PushSubscription.id (row x))
              (duePush (now w) d)) as [-> ->].
  reflexivity.
Qed.

Lemma forallb_false_exists {A : Type} (f : A -> bool) (l : list A) :
  forallb f l = false -> exists x, In x l /\ f x = false.
Proof.
  induction l as [|x l IH]; simpl; [discriminate|].
  destruct (f x) eqn:Hx; simpl.
  - intros H. destruct (IH H) as (y & Hy & Hf). exists y. auto.
  - intros _. exists x. auto.
Qed.

(** Outside [intact]: were a pending subscription to come back without its
    event, the filters, which dereference [sub.event] unguarded, would throw
    before anything is delivered or written.  The lemma only serves to cover
    every database in [GET_cases]. *)
Lemma GET_dangling (env : Env) (w : World) (req : Request) (d : DB) :
  configured env = true -> authorized env req = true -> intact d = false ->
  exists e : Exn,
    run (GET env w req) d
    = (inl e, d,
       [SgSetApiKey (nullish_default (SENDGRID_API_KEY env) "");
        FindManySubscriptions; FindManyPushSubscriptions]).
Proof.
  intros Hc Ha Hi. unfold run, GET.
  rewrite config_guard_eq, Hc. cbn [negb].
  rewrite (auth_guard_eq env req Hc), Ha. cbn [negb].
  unfold bind at 1. cbn [emit st_db st_trace app].
  unfold bind at 1. unfold findManySubscriptions at 1.
  unfold bind at 1. cbn [emit st_db st_trace app].
  unfold bind at 1. cbn [getDB ret st_db st_trace].
  fold (pendingEmail d).
  unfold bind at 1. unfold findManyPushSubscriptions at 1.
  unfold bind at 1. cbn [emit st_db st_trace app].
  unfold bind at 1. cbn [getDB ret st_db st_trace].
  fold (pendingPush d).
  unfold bind at 1. unfold lift at 1.
  unfold intact in Hi.
  destruct (forallb (fun x => isSome (event x)) (pendingEmail d)) eqn:Hie.
  - rewrite forallb_forall in Hie.
    rewrite filterE_total
      by (intros x Hx; apply dueCallback_answers, Hie, Hx).
    unfold bind at 1. unfold lift at 1.
    cbn [andb] in Hi. apply forallb_false_exists in Hi as (x & Hx & Hn).
    destruct (filterE_throws
                (fun sub : WithEvent PushSubscription.t =>
                   dueCallback (now w)
                     (PushSubscription.customOffsetMinutes (row sub)) (event sub))
                (pendingPush d) x Hx) as [e He].
    { destruct (event x); [discriminate | apply dueCallback_null]. }
    rewrite He. exists e. reflexivity.
  - apply forallb_false_exists in Hie as (x & Hx & Hn).
    destruct (filterE_throws
                (fun sub : WithEvent Subscription.t =>
                   dueCallback (now w)
                     (Subscription.customOffsetMinutes (row sub)) (event sub))
                (pendingEmail d) x Hx) as [e He].
    { destruct (event x); [discriminate | apply dueCallback_null]. }
    rewrite He. exists e. reflexivity.
Qed.

(* ===================================================================== *)
(** ** Missing VAPID keys                                                 *)
(* ===================================================================== *)

Lemma flat_map_none {A : Type} (f : A -> list Effect) (p : Effect -> bool)
    (l : list A) :
  (forall x e, In x l -> In e (f x) -> p e = false) ->
  forall e, In e (flat_map f l) -> p e = false.
Proof.
  intros H e He. apply in_flat_map in He as (x & Hx & He). exact (H x e Hx He).
Qed.

Lemma emailEffects_no_push (env : Env) (w : World)
    (x : WithEvent Subscription.t) (e : Effect) :
  In e (emailEffects env w x) -> isPushCall e = false.
Proof.
  unfold emailEffects. destruct (event x); [|intros []].
  destruct (transport_ok _ _ _); [destruct (update_ok _ _ _)|];
    cbn [In]; intuition (subst; reflexivity).
Qed.

Lemma pushEffects_no_vapid (env : Env) (w : World)
    (x : WithEvent PushSubscription.t) (e : Effect) :
  vapidConfigured env = false ->
  In e (pushEffects env w x) -> isPushCall e = false.
Proof.
  unfold pushEffects. intros ->. destruct (event x); [|intros []].
  intros [<- | []]. reflexivity.
Qed.

Lemma filter_all {A : Type} (p : A -> bool) (l : list A) :
  (forall x, p x = true) -> filter p l = l.
Proof.
  intros H. induction l as [|x l IH]; simpl; [reflexivity|].
  rewrite H, IH. reflexivity.
Qed.

Lemma filter_none {A : Type} (p : A -> bool) (l : list A) :
  (forall x, p x = false) -> filter p l = [].
Proof.
  intros H. induction l as [|x l IH]; simpl; [reflexivity|].
  rewrite H, IH. reflexivity.
Qed.

(** C8, as the dispatcher has it.  Without the VAPID key pair [sendPush]
    throws before it reaches [web-push], so no push delivery is attempted;
    the dispatcher catches the exception in the callback of each push
    subscription: the run still returns 200, every due push subscription is
    counted in [failed] and stays pending, and the email subscriptions are
    served as usual: sent when their delivery goes through, failed
    otherwise. *)
Theorem missing_vapid_fails_each_push (env : Env) (w : World) (req : Request)
    (d : DB) :
  configured env = true -> authorized env req = true -> intact d = true ->
  vapidConfigured env = false ->
  outcome (run (GET env w req) d)
  = inr (mkResponse 200
           (CountsBody
              (List.length (dueEmail (now w) d)
               + List.length (duePush (now w) d))%nat
              (List.length
                 (filter (fun x => delivers env w EmailChannel
                                     (Subscription.id (row x)))
                    (dueEmail (now w) d)))
              (List.length
                 (filter (fun x => negb (delivers env w EmailChannel
                                           (Subscription.id (row x))))
                    (dueEmail (now w) d))
               + List.length (duePush (now w) d))%nat))
  /\ pushSubscriptions (final_db (run (GET env w req) d)) = pushSubscriptions d
  /\ (forall e : Effect,
        In e (trace_of (run (GET env w req) d)) -> isPushCall e = false).
Proof.
  intros Hc Ha Hi Hv.
  rewrite (GET_run env w req d Hc Ha Hi).
  unfold outcome, final_db, trace_of. cbn [fst snd pushSubscriptions].
  assert (Hd : forall x : WithEvent PushSubscription.t,
             delivers env w PushChannel (PushSubscription.id (row x)) = false).
  { intros x. unfold delivers, accepts. rewrite Hv. reflexivity. }
  split; [|split].
  - rewrite (filter_none _ (duePush (now w) d) Hd).
    rewrite (filter_all (fun x => negb (delivers env w PushChannel
                                          (PushSubscription.id (row x))))
               (duePush (now w) d))
      by (intros x; rewrite Hd; reflexivity).
    cbn [List.length]. rewrite Nat.add_0_r. reflexivity.
  - unfold sentPushIds. rewrite (filter_none _ (duePush (now w) d) Hd).
    apply markIds_nil.
  - intros e [<- | [<- | [<- | He]]]; try reflexivity.
    apply in_app_iff in He as [He | He].
    + revert e He. apply flat_map_none. intros x e _. apply emailEffects_no_push.
    + revert e He. apply flat_map_none. intros x e _.
      apply pushEffects_no_vapid, Hv.
Qed.

Lemma missing_vapid_fails_each_push_witness :
  outcome (run (GET Sample.envNoVapid Sample.w Sample.req) Sample.db)
  = inr (mkResponse 200 (CountsBody 3 2 1))
  /\ pushSubscriptions
       (final_db (run (GET Sample.envNoVapid Sample.w Sample.req) Sample.db))
     = [Sample.phone]
  /\ (forall e : Effect,
        In e (trace_of (run (GET Sample.envNoVapid Sample.w Sample.req)
                          Sample.db)) ->
        isPushCall e = false).
Proof.
  apply (missing_vapid_fails_each_push Sample.envNoVapid Sample.w Sample.req
           Sample.db); reflexivity.
Defined.

(** C8, as stated, fails: with the VAPID keys unset and one push
    subscription due, the run is not a fatal error; it returns 200 and the
    missing keys show as one failed subscription in the counts. *)
Lemma missing_vapid_is_counted_per_subscription :
  vapidConfigured Sample.envNoVapid = false
  /\ run (GET Sample.envNoVapid Sample.w Sample.req) Sample.dbPush
     = (inr (mkResponse 200 (CountsBody 1 0 1)), Sample.dbPush,
        [SgSetApiKey "SG.key"; FindManySubscriptions;
         FindManyPushSubscriptions; ConsoleError "Push error"]).
Proof. split; reflexivity. Qed.

(* ===================================================================== *)
(** ** Partial failure                                                    *)
(* ===================================================================== *)

Lemma NoDup_key_inj {R : Type} (key : R -> string) (l : list R) (x y : R) :
  NoDup (map key l) -> In x l -> In y l -> key x = key y -> x = y.
Proof.
  induction l as [|z l IH]; intros Hnd Hx Hy Hk; [destruct Hx|].
  simpl in Hnd. inversion Hnd as [|? ? Hnotin Hnd']; subst.
  destruct Hx as [->|Hx], Hy as [->|Hy].
  - reflexivity.
  - exfalso. apply Hnotin. rewrite Hk. apply in_map, Hy.
  - exfalso. apply Hnotin. rewrite <- Hk. apply in_map, Hx.
  - apply IH; assumption.
Qed.

Section Flag.
Context {R : Type} (key : R -> string) (mark : Z -> R -> R) (flag : R -> bool).
Hypothesis key_mark : forall t r, key (mark t r) = key r.
Hypothesis flag_mark : forall t r, flag (mark t r) = true.
Variable stamp : string -> Z.

(** A pending row whose key is not marked is still pending. *)
Lemma unmarked_stays_pending (ids : list string) (tbl : list R) (x : R) :
  NoDup (map key tbl) -> In x tbl -> flag x = false -> ~ In (key x) ids ->
  existsb (fun s => (key s =? key x) && flag s) (markIds key mark stamp ids tbl)
  = false.
Proof.
  intros Hnd Hx Hf Hnot. apply not_true_is_false. intros H.
  apply existsb_exists in H as (r' & Hr' & Hk).
  apply andb_true_iff in Hk as [Hk Hfl]. apply String.eqb_eq in Hk.
  apply (In_markIds key mark key_mark) in Hr'
    as (r & Hr & Hkr & [[Hin _] | [_ ->]]).
  - apply Hnot. rewrite <- Hk, <- Hkr. exact Hin.
  - rewrite (NoDup_key_inj key tbl r x Hnd Hr Hx Hk) in Hfl.
    rewrite Hf in Hfl. discriminate.
Qed.

(** A row whose key is marked is notified. *)
Lemma marked_is_notified (ids : list string) (tbl : list R) (x : R) :
  In x tbl -> In (key x) ids ->
  existsb (fun s => (key s =? key x) && flag s) (markIds key mark stamp ids tbl)
  = true.
Proof.
  intros Hx Hin. apply existsb_exists.
  exists (mark (stamp (key x)) x). split.
  - unfold markIds. apply in_map_iff. exists x. split; [|exact Hx].
    assert (E : existsb (String.eqb (key x)) ids = true).
    { apply existsb_exists. exists (key x). split; [exact Hin | apply String.eqb_refl]. }
    rewrite E. reflexivity.
  - rewrite key_mark, flag_mark, String.eqb_refl. reflexivity.
Qed.

(** The rows still pending after marking have no marked key. *)
Lemma pending_after_mark (ids : list string) (tbl : list R) (r' : R) :
  In r' (markIds key mark stamp ids tbl) -> flag r' = false ->
  ~ In (key r') ids /\ In r' tbl.
Proof.
  intros Hr' Hf.
  apply (In_markIds key mark key_mark) in Hr'
    as (r & Hr & Hkr & [[_ ->] | [Hn ->]]).
  - rewrite flag_mark in Hf. discriminate.
  - split; assumption.
Qed.
End Flag.

Lemma dueEmail_row (now : Z) (d : DB) (x : WithEvent Subscription.t) :
  In x (dueEmail now d) ->
  In (row x) (subscriptions d) /\ Subscription.notified (row x) = false.
Proof.
  intros H. apply filter_In in H as [H _].
  apply pendingEmail_in_table in H as (H1 & H2 & _). split; assumption.
Qed.

Lemma duePush_row (now : Z) (d : DB) (x : WithEvent PushSubscription.t) :
  In x (duePush now d) ->
  In (row x) (pushSubscriptions d) /\ PushSubscription.notified (row x) = false.
Proof.
  intros H. apply filter_In in H as [H _].
  apply pendingPush_in_table in H as (H1 & H2 & _). split; assumption.
Qed.

(** C3. A run with two due subscriptions, the delivery of the first of
    which throws while the second goes through, returns normally with
    [processed = 2], [sent = 1] and [failed = 1]; it marks the rows of the
    key of the second subscription and no other row, so the first is still
    pending for the next run.  A delivery goes through when the transport
    takes the message and the update of the row is written; it throws when
    either of the two rejects.  (Keys are unique and every pending
    subscription has its event.) *)
Theorem partial_failure_is_isolated (env : Env) (w : World) (req : Request)
    (d : DB) (a b : Channel * string) :
  configured env = true -> authorized env req = true ->
  intact d = true -> keyed d ->
  dueKeys (now w) d = [a; b] ->
  delivers env w (fst a) (snd a) = false ->
  delivers env w (fst b) (snd b) = true ->
  outcome (run (GET env w req) d) = inr (mkResponse 200 (CountsBody 2 1 1))
  /\ events (final_db (run (GET env w req) d)) = events d
  /\ subscriptions (final_db (run (GET env w req) d))
     = markIds Subscription.id Subscription.markNotified
         (update_time w EmailChannel) (keysOf EmailChannel b) (subscriptions d)
  /\ pushSubscriptions (final_db (run (GET env w req) d))
     = markIds PushSubscription.id PushSubscription.markNotified
         (update_time w PushChannel) (keysOf PushChannel b)
         (pushSubscriptions d)
  /\ isNotified (fst a) (snd a) (final_db (run (GET env w req) d)) = false
  /\ isNotified (fst b) (snd b) (final_db (run (GET env w req) d)) = true.
Proof.
  intros Hc Ha Hi [Hke Hkp] Hdue Hfa Hsb.
  rewrite (GET_run env w req d Hc Ha Hi).
  unfold outcome, final_db. cbn [fst snd events subscriptions pushSubscriptions].
  unfold sentEmailIds, sentPushIds, dueKeys in *.
  pose proof (dueEmail_row (now w) d) as Hre.
  pose proof (duePush_row (now w) d) as Hrp.
  destruct (dueEmail (now w) d) as [|x [|y [|z le]]];
    destruct (duePush (now w) d) as [|p [|q [|r lp]]];
    cbn [map app] in Hdue; try discriminate Hdue;
    injection Hdue as <- <-; cbn [fst snd] in Hfa, Hsb;
    cbn [filter map List.length]; rewrite ?Hfa, ?Hsb;
    cbn [negb filter map List.length Nat.add keysOf fst snd isNotified
           subscriptions pushSubscriptions].
  - (* two push subscriptions *)
    destruct (Hrp p (or_introl eq_refl)) as [Hp Hpn].
    destruct (Hrp q (or_intror (or_introl eq_refl))) as [Hq Hqn].
    repeat split.
    + apply (unmarked_stays_pending PushSubscription.id
               PushSubscription.markNotified PushSubscription.notified);
        try reflexivity; try assumption.
      intros [E | []]. rewrite E in Hsb. rewrite Hsb in Hfa. discriminate.
    + apply (marked_is_notified PushSubscription.id
               PushSubscription.markNotified PushSubscription.notified);
        try reflexivity; [assumption | left; reflexivity].
  - (* an email subscription, then a push subscription *)
    destruct (Hre x (or_introl eq_refl)) as [Hx Hxn].
    destruct (Hrp p (or_introl eq_refl)) as [Hp Hpn].
    repeat split.
    + apply (unmarked_stays_pending Subscription.id
               Subscription.markNotified Subscription.notified);
        try reflexivity; try assumption.
      intros [].
    + apply (marked_is_notified PushSubscription.id
               PushSubscription.markNotified PushSubscription.notified);
        try reflexivity; [assumption | left; reflexivity].
  - (* two email subscriptions *)
    destruct (Hre x (or_introl eq_refl)) as [Hx Hxn].
    destruct (Hre y (or_intror (or_introl eq_refl))) as [Hy Hyn].
    repeat split.
    + apply (unmarked_stays_pending Subscription.id
               Subscription.markNotified Subscription.notified);
        try reflexivity; try assumption.
      intros [E | []]. rewrite E in Hsb. rewrite Hsb in Hfa. discriminate.
    + apply (marked_is_notified Subscription.id
               Subscription.markNotified Subscription.notified);
        try reflexivity; [assumption | left; reflexivity].
Qed.

Lemma partial_failure_is_isolated_witness :
  outcome (run (GET Sample.env Sample.wFirstFails Sample.req) Sample.dbTwo)
  = inr (mkResponse 200 (CountsBody 2 1 1))
  /\ events (final_db (run (GET Sample.env Sample.wFirstFails Sample.req)
                         Sample.dbTwo)) = [Sample.practice]
  /\ subscriptions (final_db (run (GET Sample.env Sample.wFirstFails Sample.req)
                                Sample.dbTwo))
     = markIds Subscription.id Subscription.markNotified
         (update_time Sample.wFirstFails EmailChannel) ["sub-2"]
         [Sample.alice; Sample.bob]
  /\ pushSubscriptions (final_db (run (GET Sample.env Sample.wFirstFails
                                         Sample.req) Sample.dbTwo))
     = markIds PushSubscription.id PushSubscription.markNotified
         (update_time Sample.wFirstFails PushChannel) [] []
  /\ isNotified EmailChannel "sub-1"
       (final_db (run (GET Sample.env Sample.wFirstFails Sample.req)
                    Sample.dbTwo)) = false
  /\ isNotified EmailChannel "sub-2"
       (final_db (run (GET Sample.env Sample.wFirstFails Sample.req)
                    Sample.dbTwo)) = true.
Proof.
  apply (partial_failure_is_isolated Sample.env Sample.wFirstFails Sample.req
           Sample.dbTwo (EmailChannel, "sub-1") (EmailChannel, "sub-2"));
    try reflexivity.
  split; simpl.
  - repeat constructor; simpl; intuition discriminate.
  - constructor.
Defined.

(* ===================================================================== *)
(** ** Running the dispatcher twice                                       *)
(* ===================================================================== *)

Lemma deliveries_app (c : Channel) (i : string) (l1 l2 : list Effect) :
  deliveries c i (l1 ++ l2) = (deliveries c i l1 + deliveries c i l2)%nat.
Proof. unfold deliveries. rewrite filter_app, length_app. reflexivity. Qed.

Lemma attempts_app (c : Channel) (i : string) (l1 l2 : list Effect) :
  attempts c i (l1 ++ l2) = (attempts c i l1 + attempts c i l2)%nat.
Proof. unfold attempts. rewrite filter_app, length_app. reflexivity. Qed.

Lemma deliveries_le_attempts (c : Channel) (i : string) (tr : list Effect) :
  (deliveries c i tr <= attempts c i tr)%nat.
Proof.
  unfold deliveries, attempts.
  induction tr as [|e tr IH]; simpl; [lia|].
  assert (H : deliveredTo c i e = true -> attemptedTo c i e = true).
  { destruct c, e; simpl; try discriminate; intros H;
      apply andb_true_iff in H as [H _]; exact H. }
  destruct (deliveredTo c i e); [rewrite (H eq_refl)|destruct (attemptedTo c i e)];
    simpl; lia.
Qed.

Section Counting.
Context {A : Type} (key : A -> string) (eff : A -> list Effect)
  (c : Channel) (ok : A -> bool).

(** The effects of one subscription hold at most one attempt, for its own
    key, and a delivery only when [ok] holds of it. *)
Hypothesis eff_attempts :
  forall x i, (attempts c i (eff x) <= if (key x =? i)%string then 1 else 0)%nat.
Hypothesis eff_deliveries :
  forall x i, (0 < deliveries c i (eff x))%nat -> key x = i /\ ok x = true.

Lemma attempts_flat_map (i : string) (l : list A) :
  (attempts c i (flat_map eff l)
   <= List.length (filter (fun x => (key x =? i)%string) l))%nat.
Proof.
  induction l as [|x l IH]; simpl; [unfold attempts; simpl; lia|].
  rewrite attempts_app. specialize (eff_attempts x i).
  destruct (key x =? i); simpl; lia.
Qed.

Lemma deliveries_flat_map (i : string) (l : list A) :
  (0 < deliveries c i (flat_map eff l))%nat ->
  exists x, In x l /\ key x = i /\ ok x = true.
Proof.
  induction l as [|x l IH]; simpl; [unfold deliveries; simpl; lia|].
  rewrite deliveries_app. intros H.
  destruct (Nat.eq_dec (deliveries c i (eff x)) 0) as [E|E].
  - destruct IH as (y & Hy & Hk); [lia|]. exists y. auto.
  - destruct (eff_deliveries x i) as [Hk Hok]; [lia|]. exists x. auto.
Qed.

Lemma key_count_0 (i : string) (l : list A) :
  ~ In i (map key l) ->
  List.length (filter (fun x => (key x =? i)%string) l) = 0%nat.
Proof.
  induction l as [|x l IH]; simpl; intros Hn; [reflexivity|].
  destruct (String.eqb_spec (key x) i) as [E|_].
  - exfalso. apply Hn. left. exact E.
  - apply IH. intros H. apply Hn. right. exact H.
Qed.

Lemma key_count_le_1 (i : string) (l : list A) :
  NoDup (map key l) ->
  (List.length (filter (fun x => (key x =? i)%string) l) <= 1)%nat.
Proof.
  induction l as [|x l IH]; simpl; intros Hnd; [lia|].
  inversion Hnd as [|? ? Hnotin Hnd']; subst.
  destruct (String.eqb_spec (key x) i) as [<-|]; simpl; [|apply IH, Hnd'].
  rewrite (key_count_0 (key x) l Hnotin). lia.
Qed.

Lemma attempts_flat_map_le_1 (i : string) (l : list A) :
  NoDup (map key l) -> (attempts c i (flat_map eff l) <= 1)%nat.
Proof.
  intros Hnd. pose proof (attempts_flat_map i l).
  pose proof (key_count_le_1 i l Hnd). lia.
Qed.

Lemma attempts_flat_map_0 (i : string) (l : list A) :
  ~ In i (map key l) -> attempts c i (flat_map eff l) = 0%nat.
Proof.
  intros Hn. pose proof (attempts_flat_map i l).
  rewrite (key_count_0 i l Hn) in H. lia.
Qed.
End Counting.

(** Dropping rows of a table keeps its keys distinct. *)
Lemma keys_distinct_filter {R K : Type} (key : R -> K) (keep : R -> bool)
    (tbl : list R) :
  NoDup (map key tbl) -> NoDup (map key (filter keep tbl)).
Proof.
  intros Hnd. induction tbl as [|r tbl IH]; simpl; [constructor|].
  simpl in Hnd. inversion Hnd as [|? ? Hnotin Hnd']; subst.
  destruct (keep r); simpl; [|apply IH, Hnd'].
  constructor; [|apply IH, Hnd'].
  intros H. apply Hnotin. apply in_map_iff in H as (y & Hy & Hin).
  apply filter_In in Hin as [Hin _]. apply in_map_iff. exists y. auto.
Qed.

Lemma dueEmail_keys (now : Z) (d : DB) :
  NoDup (map Subscription.id (subscriptions d)) ->
  NoDup (map (fun x => Subscription.id (row x)) (dueEmail now d)).
Proof.
  intros H. unfold dueEmail. apply keys_distinct_filter.
  unfold pendingEmail. rewrite map_map. cbn [row].
  apply keys_distinct_filter, H.
Qed.

Lemma duePush_keys (now : Z) (d : DB) :
  NoDup (map PushSubscription.id (pushSubscriptions d)) ->
  NoDup (map (fun x => PushSubscription.id (row x)) (duePush now d)).
Proof.
  intros H. unfold duePush. apply keys_distinct_filter.
  unfold pendingPush. rewrite map_map. cbn [row].
  apply keys_distinct_filter, H.
Qed.

Lemma emailEffects_attempts (env : Env) (w : World)
    (x : WithEvent Subscription.t) (c : Channel) (i : string) :
  (attempts c i (emailEffects env w x)
   <= match c with
      | EmailChannel => if (Subscription.id (row x) =? i)%string then 1 else 0
      | PushChannel => 0
      end)%nat.
Proof.
  unfold emailEffects, attempts. destruct (event x); [|destruct c; simpl; lia].
  destruct c; destruct (transport_ok _ _ _);
    try destruct (update_ok w EmailChannel (Subscription.id (row x))); simpl;
    try destruct (_ =? i)%string; simpl; lia.
Qed.

Lemma pushEffects_attempts (env : Env) (w : World)
    (x : WithEvent PushSubscription.t) (c : Channel) (i : string) :
  (attempts c i (pushEffects env w x)
   <= match c with
      | EmailChannel => 0
      | PushChannel => if (PushSubscription.id (row x) =? i)%string then 1 else 0
      end)%nat.
Proof.
  unfold pushEffects, attempts. destruct (event x); [|destruct c; simpl; lia].
  destruct c; destruct (vapidConfigured env);
    destruct (transport_ok w PushChannel (PushSubscription.id (row x)));
    try destruct (update_ok w PushChannel (PushSubscription.id (row x)));
    simpl; try destruct (_ =? i)%string; simpl; lia.
Qed.

Lemma emailEffects_deliveries (env : Env) (w : World)
    (x : WithEvent Subscription.t) (c : Channel) (i : string) :
  (0 < deliveries c i (emailEffects env w x))%nat ->
  c = EmailChannel /\ Subscription.id (row x) = i
  /\ accepts env w EmailChannel (Subscription.id (row x)) = true.
Proof.
  unfold emailEffects, deliveries, accepts.
  destruct (event x); [|simpl; destruct c; simpl; lia].
  destruct c; destruct (transport_ok _ _ _);
    try destruct (update_ok w EmailChannel (Subscription.id (row x))); simpl;
    try destruct (String.eqb_spec (Subscription.id (row x)) i); simpl;
    try lia; auto.
Qed.

Lemma pushEffects_deliveries (env : Env) (w : World)
    (x : WithEvent PushSubscription.t) (c : Channel) (i : string) :
  (0 < deliveries c i (pushEffects env w x))%nat ->
  c = PushChannel /\ PushSubscription.id (row x) = i
  /\ accepts env w PushChannel (PushSubscription.id (row x)) = true.
Proof.
  unfold pushEffects, deliveries, accepts.
  destruct (event x); [|simpl; destruct c; simpl; lia].
  destruct c; destruct (vapidConfigured env);
    destruct (transport_ok w PushChannel (PushSubscription.id (row x)));
    try destruct (update_ok w PushChannel (PushSubscription.id (row x)));
    simpl;
    try destruct (String.eqb_spec (PushSubscription.id (row x)) i); simpl;
    try lia; auto.
Qed.

Lemma attempts_flat_map_none {A : Type} (eff : A -> list Effect) (c : Channel)
    (i : string) (l : list A) :
  (forall x, attempts c i (eff x) = 0%nat) ->
  attempts c i (flat_map eff l) = 0%nat.
Proof.
  intros H. induction l as [|x l IH]; simpl; [reflexivity|].
  rewrite attempts_app, H, IH. reflexivity.
Qed.

(** A run either makes no attempt and leaves the database as it is (a
    guard answers, or a filter throws), or it is the run of [GET_run]. *)
Lemma GET_cases (env : Env) (w : World) (req : Request) (d : DB) :
  (final_db (run (GET env w req) d) = d
   /\ forall c i, attempts c i (trace_of (run (GET env w req) d)) = 0%nat)
  \/ (configured env = true /\ authorized env req = true /\ intact d = true).
Proof.
  destruct (configured env) eqn:Hc.
  - destruct (authorized env req) eqn:Ha.
    + destruct (intact d) eqn:Hi; [right; auto|]. left.
      destruct (GET_dangling env w req d Hc Ha Hi) as [e ->].
      split; [reflexivity|]. intros c i. destruct c; reflexivity.
    + left. rewrite (GET_not_authorized env w req d Hc Ha).
      split; [reflexivity|]. intros c i. reflexivity.
  - left. rewrite (GET_not_configured env w req d Hc).
    split; [reflexivity|]. intros c i. reflexivity.
Qed.

Lemma GET_run_attempts (env : Env) (w : World) (req : Request) (d : DB)
    (c : Channel) (i : string) :
  configured env = true -> authorized env req = true -> intact d = true ->
  (~ In i (dueIds (now w) c d) ->
   attempts c i (trace_of (run (GET env w req) d)) = 0%nat)
  /\ (keyed d -> (attempts c i (trace_of (run (GET env w req) d)) <= 1)%nat).
Proof.
  intros Hc Ha Hi. rewrite (GET_run env w req d Hc Ha Hi).
  unfold trace_of. cbn [snd].
  change (SgSetApiKey (nullish_default (SENDGRID_API_KEY env) "")
          :: FindManySubscriptions :: FindManyPushSubscriptions
          :: flat_map (emailEffects env w) (dueEmail (now w) d)
             ++ flat_map (pushEffects env w) (duePush (now w) d))
    with ([SgSetApiKey (nullish_default (SENDGRID_API_KEY env) "");
           FindManySubscriptions; FindManyPushSubscriptions]
          ++ flat_map (emailEffects env w) (dueEmail (now w) d)
             ++ flat_map (pushEffects env w) (duePush (now w) d))%list.
  rewrite !attempts_app.
  assert (H0 : attempts c i
                 [SgSetApiKey (nullish_default (SENDGRID_API_KEY env) "");
                  FindManySubscriptions; FindManyPushSubscriptions] = 0%nat)
    by (destruct c; reflexivity).
  rewrite H0. cbn [Nat.add].
  destruct c; cbn [dueIds].
  - rewrite (attempts_flat_map_none (pushEffects env w) EmailChannel i)
      by (intros x; pose proof (pushEffects_attempts env w x EmailChannel i) as H;
          cbn beta iota in H; lia).
    rewrite Nat.add_0_r. split.
    + apply (attempts_flat_map_0 (fun x => Subscription.id (row x))).
      intros x j. apply (emailEffects_attempts env w x EmailChannel j).
    + intros [Hk _].
      apply (attempts_flat_map_le_1 (fun x => Subscription.id (row x))).
      * intros x j. apply (emailEffects_attempts env w x EmailChannel j).
      * apply dueEmail_keys, Hk.
  - rewrite (attempts_flat_map_none (emailEffects env w) PushChannel i)
      by (intros x; pose proof (emailEffects_attempts env w x PushChannel i) as H;
          cbn beta iota in H; lia).
    cbn [Nat.add]. split.
    + apply (attempts_flat_map_0 (fun x => PushSubscription.id (row x))).
      intros x j. apply (pushEffects_attempts env w x PushChannel j).
    + intros [_ Hk].
      apply (attempts_flat_map_le_1 (fun x => PushSubscription.id (row x))).
      * intros x j. apply (pushEffects_attempts env w x PushChannel j).
      * apply duePush_keys, Hk.
Qed.

Lemma deliveries_flat_map_none {A : Type} (eff : A -> list Effect) (c : Channel)
    (i : string) (l : list A) :
  (forall x, deliveries c i (eff x) = 0%nat) ->
  deliveries c i (flat_map eff l) = 0%nat.
Proof.
  intros H. induction l as [|x l IH]; simpl; [reflexivity|].
  rewrite deliveries_app, H, IH. reflexivity.
Qed.

(** A key delivered to in a run is the key of a due subscription whose
    message the transport took. *)
Lemma GET_run_accepted (env : Env) (w : World) (req : Request) (d : DB)
    (c : Channel) (i : string) :
  configured env = true -> authorized env req = true -> intact d = true ->
  (0 < deliveries c i (trace_of (run (GET env w req) d)))%nat ->
  In i (dueIds (now w) c d) /\ accepts env w c i = true.
Proof.
  intros Hc Ha Hi. rewrite (GET_run env w req d Hc Ha Hi).
  unfold trace_of. cbn [snd].
  change (SgSetApiKey (nullish_default (SENDGRID_API_KEY env) "")
          :: FindManySubscriptions :: FindManyPushSubscriptions
          :: flat_map (emailEffects env w) (dueEmail (now w) d)
             ++ flat_map (pushEffects env w) (duePush (now w) d))
    with ([SgSetApiKey (nullish_default (SENDGRID_API_KEY env) "");
           FindManySubscriptions; FindManyPushSubscriptions]
          ++ flat_map (emailEffects env w) (dueEmail (now w) d)
             ++ flat_map (pushEffects env w) (duePush (now w) d))%list.
  rewrite !deliveries_app.
  assert (H0 : deliveries c i
                 [SgSetApiKey (nullish_default (SENDGRID_API_KEY env) "");
                  FindManySubscriptions; FindManyPushSubscriptions] = 0%nat)
    by (destruct c; reflexivity).
  rewrite H0. cbn [Nat.add]. intros H.
  destruct c; cbn [dueIds].
  - rewrite (deliveries_flat_map_none (pushEffects env w) EmailChannel i) in H.
    + rewrite Nat.add_0_r in H.
      apply (deliveries_flat_map (fun x => Subscription.id (row x))
               (emailEffects env w) EmailChannel
               (fun x => accepts env w EmailChannel (Subscription.id (row x))))
        in H.
      * destruct H as (x & Hx & <- & Hok). split; [|exact Hok].
        apply in_map_iff. exists x. split; [reflexivity | exact Hx].
      * intros x j Hj.
        destruct (emailEffects_deliveries env w x EmailChannel j Hj)
          as (_ & Hk & Hok). split; assumption.
    + intros x.
      destruct (deliveries EmailChannel i (pushEffects env w x)) eqn:E;
        [reflexivity|].
      destruct (pushEffects_deliveries env w x EmailChannel i) as [Hf _];
        [lia | discriminate Hf].
  - rewrite (deliveries_flat_map_none (emailEffects env w) PushChannel i) in H.
    + cbn [Nat.add] in H.
      apply (deliveries_flat_map (fun x => PushSubscription.id (row x))
               (pushEffects env w) PushChannel
               (fun x => accepts env w PushChannel
                           (PushSubscription.id (row x))))
        in H.
      * destruct H as (x & Hx & <- & Hok). split; [|exact Hok].
        apply in_map_iff. exists x. split; [reflexivity | exact Hx].
      * intros x j Hj.
        destruct (pushEffects_deliveries env w x PushChannel j Hj)
          as (_ & Hk & Hok). split; assumption.
    + intros x.
      destruct (deliveries PushChannel i (emailEffects env w x)) eqn:E;
        [reflexivity|].
      destruct (emailEffects_deliveries env w x PushChannel i) as [Hf _];
        [lia | discriminate Hf].
Qed.

(** A due subscription whose delivery goes through is reported as sent, and
    one whose delivery does not is not. *)
Lemma due_sent_iff (env : Env) (w : World) (c : Channel) (d : DB) (i : string) :
  In i (sentIds env w c d)
  <-> In i (dueIds (now w) c d) /\ delivers env w c i = true.
Proof.
  destruct c; cbn [sentIds dueIds]; unfold sentEmailIds, sentPushIds;
    rewrite !in_map_iff; split.
  - intros (x & <- & Hx). apply filter_In in Hx as [Hx Hok].
    split; [exists x; split; [reflexivity | exact Hx] | exact Hok].
  - intros [(x & <- & Hx) Hok]. exists x. split; [reflexivity|].
    apply filter_In. split; assumption.
  - intros (x & <- & Hx). apply filter_In in Hx as [Hx Hok].
    split; [exists x; split; [reflexivity | exact Hx] | exact Hok].
  - intros [(x & <- & Hx) Hok]. exists x. split; [reflexivity|].
    apply filter_In. split; assumption.
Qed.

Lemma GET_run_final_db (env : Env) (w : World) (req : Request) (d : DB) :
  configured env = true -> authorized env req = true -> intact d = true ->
  final_db (run (GET env w req) d)
  = mkDB (events d)
      (markIds Subscription.id Subscription.markNotified
         (update_time w EmailChannel) (sentEmailIds env w d) (subscriptions d))
      (markIds PushSubscription.id PushSubscription.markNotified
         (update_time w PushChannel) (sentPushIds env w d)
         (pushSubscriptions d)).
Proof.
  intros Hc Ha Hi. rewrite (GET_run env w req d Hc Ha Hi). reflexivity.
Qed.

Lemma GET_keeps_keys (env : Env) (w : World) (req : Request) (d : DB) :
  keyed d -> keyed (final_db (run (GET env w req) d)).
Proof.
  intros Hk. destruct (GET_cases env w req d) as [[-> _] | (Hc & Ha & Hi)];
    [exact Hk|].
  rewrite (GET_run_final_db env w req d Hc Ha Hi).
  destruct Hk as [Hke Hkp]. split; cbn [subscriptions pushSubscriptions];
    rewrite keys_markIds; try reflexivity; assumption.
Qed.

(** A key reported as sent by a run is the key of a row of the table,
    marked by the run. *)
Lemma sent_is_notified (env : Env) (w : World) (req : Request) (d : DB)
    (c : Channel) (i : string) :
  configured env = true -> authorized env req = true -> intact d = true ->
  In i (sentIds env w c d) ->
  isNotified c i (final_db (run (GET env w req) d)) = true.
Proof.
  intros Hc Ha Hi Hin. rewrite (GET_run_final_db env w req d Hc Ha Hi).
  destruct c; cbn [sentIds isNotified subscriptions pushSubscriptions] in *.
  - pose proof Hin as Hin'. unfold sentEmailIds in Hin'.
    apply in_map_iff in Hin' as (x & <- & Hx). apply filter_In in Hx as [Hx _].
    apply dueEmail_row in Hx as [Hx _].
    apply (marked_is_notified Subscription.id Subscription.markNotified
             Subscription.notified); try reflexivity; assumption.
  - pose proof Hin as Hin'. unfold sentPushIds in Hin'.
    apply in_map_iff in Hin' as (x & <- & Hx). apply filter_In in Hx as [Hx _].
    apply duePush_row in Hx as [Hx _].
    apply (marked_is_notified PushSubscription.id PushSubscription.markNotified
             PushSubscription.notified); try reflexivity; assumption.
Qed.

(** A key reported as sent by a run is not due in a run that follows it. *)
Lemma sent_not_due_again (env : Env) (w : World) (req : Request) (d : DB)
    (now' : Z) (c : Channel) (i : string) :
  configured env = true -> authorized env req = true -> intact d = true ->
  In i (sentIds env w c d) ->
  ~ In i (dueIds now' c (final_db (run (GET env w req) d))).
Proof.
  intros Hc Ha Hi Hin Hdue. rewrite (GET_run_final_db env w req d Hc Ha Hi) in Hdue.
  destruct c; cbn [sentIds dueIds] in *.
  - apply in_map_iff in Hdue as (x & <- & Hx).
    apply dueEmail_row in Hx as [Hx Hn]. cbn [subscriptions] in Hx.
    apply (pending_after_mark Subscription.id Subscription.markNotified
             Subscription.notified) in Hx as [Hnot _];
      try reflexivity; [|exact Hn].
    exact (Hnot Hin).
  - apply in_map_iff in Hdue as (x & <- & Hx).
    apply duePush_row in Hx as [Hx Hn]. cbn [pushSubscriptions] in Hx.
    apply (pending_after_mark PushSubscription.id PushSubscription.markNotified
             PushSubscription.notified) in Hx as [Hnot _];
      try reflexivity; [|exact Hn].
    exact (Hnot Hin).
Qed.

Lemma GET_attempts_le_1 (env : Env) (w : World) (req : Request) (d : DB)
    (c : Channel) (i : string) :
  keyed d -> (attempts c i (trace_of (run (GET env w req) d)) <= 1)%nat.
Proof.
  intros Hk. destruct (GET_cases env w req d) as [[_ H] | (Hc & Ha & Hi)].
  - rewrite H. lia.
  - apply (GET_run_attempts env w req d c i Hc Ha Hi), Hk.
Qed.

(** C2, as the dispatcher has it.  Run the dispatcher, then run it again on
    the database the first run left (at the same time or later, whatever the
    world does the second time).  A subscription delivered to in the first
    run whose update was written is notified after it and the second run
    makes no attempt for it; so, when the update that follows an accepted
    message of the first run is written, no subscription is delivered to
    twice over the two runs.  Each run by itself delivers at most once to a
    subscription.  (Keys are unique.) *)
Theorem second_run_skips_recorded_sends (env : Env) (w1 w2 : World)
    (req : Request) (d : DB) (c : Channel) (i : string) :
  keyed d ->
  let r1 := run (GET env w1 req) d in
  let r2 := run (GET env w2 req) (final_db r1) in
  ((0 < deliveries c i (trace_of r1))%nat -> update_ok w1 c i = true ->
   isNotified c i (final_db r1) = true
   /\ attempts c i (trace_of r2) = 0%nat
   /\ deliveries c i (trace_of r2) = 0%nat)
  /\ (((0 < deliveries c i (trace_of r1))%nat -> update_ok w1 c i = true) ->
      (deliveries c i (trace_of r1) + deliveries c i (trace_of r2) <= 1)%nat)
  /\ (deliveries c i (trace_of r1) <= 1)%nat
  /\ (deliveries c i (trace_of r2) <= 1)%nat.
Proof.
  intros Hk r1 r2.
  assert (Hfirst : (0 < deliveries c i (trace_of r1))%nat ->
                   update_ok w1 c i = true ->
                   isNotified c i (final_db r1) = true
                   /\ attempts c i (trace_of r2) = 0%nat
                   /\ deliveries c i (trace_of r2) = 0%nat).
  { intros Hd Hu. subst r1 r2.
    destruct (GET_cases env w1 req d) as [[_ H] | (Hc & Ha & Hi)].
    - pose proof (deliveries_le_attempts c i
                    (trace_of (run (GET env w1 req) d))) as Hle.
      rewrite H in Hle. lia.
    - destruct (GET_run_accepted env w1 req d c i Hc Ha Hi Hd) as [Hdue Hacc].
      assert (Hin : In i (sentIds env w1 c d)).
      { apply due_sent_iff. split; [exact Hdue|].
        unfold delivers. rewrite Hacc, Hu. reflexivity. }
      split; [apply sent_is_notified; assumption|].
      assert (Hz : attempts c i
                     (trace_of (run (GET env w2 req)
                                  (final_db (run (GET env w1 req) d)))) = 0%nat).
      { destruct (GET_cases env w2 req (final_db (run (GET env w1 req) d)))
          as [[_ H] | (Hc' & Ha' & Hi')]; [apply H|].
        apply (GET_run_attempts env w2 req _ c i Hc' Ha' Hi').
        apply sent_not_due_again; assumption. }
      split; [exact Hz|].
      pose proof (deliveries_le_attempts c i
                    (trace_of (run (GET env w2 req)
                                 (final_db (run (GET env w1 req) d))))) as Hle.
      lia. }
  pose proof (deliveries_le_attempts c i (trace_of r1)) as H1.
  pose proof (deliveries_le_attempts c i (trace_of r2)) as H2.
  pose proof (GET_attempts_le_1 env w1 req d c i Hk) as B1.
  pose proof (GET_attempts_le_1 env w2 req (final_db r1) c i
                (GET_keeps_keys env w1 req d Hk)) as B2.
  fold r1 in B1. fold r2 in B2.
  split; [exact Hfirst|]. split; [|split; lia].
  intros Hu.
  destruct (Nat.eq_dec (deliveries c i (trace_of r1)) 0) as [E|E]; [lia|].
  destruct Hfirst as (_ & _ & Hz); [lia | apply Hu; lia | lia].
Qed.

Lemma second_run_skips_recorded_sends_witness :
  let r1 := run (GET Sample.env Sample.w Sample.req) Sample.db in
  let r2 := run (GET Sample.env Sample.w Sample.req) (final_db r1) in
  (isNotified EmailChannel "sub-1" (final_db r1) = true
   /\ attempts EmailChannel "sub-1" (trace_of r2) = 0%nat
   /\ deliveries EmailChannel "sub-1" (trace_of r2) = 0%nat)
  /\ (deliveries EmailChannel "sub-1" (trace_of r1)
      + deliveries EmailChannel "sub-1" (trace_of r2) <= 1)%nat.
Proof.
  cbv zeta.
  assert (Hk : keyed Sample.db).
  { split; simpl; repeat constructor; simpl; intuition discriminate. }
  pose proof (second_run_skips_recorded_sends Sample.env Sample.w Sample.w
                Sample.req Sample.db EmailChannel "sub-1" Hk) as (H1 & H2 & _).
  split.
  - apply H1; [vm_compute; lia | reflexivity].
  - apply H2. intros _. reflexivity.
Defined.

(** C2, as stated, fails: SendGrid accepts the message for ["sub-1"] and the
    database rejects the update that follows.  The callback catches the
    rejection and reports the delivery as failed; the row stays pending, and
    the second run, at the same time and with nothing else changed, delivers
    to ["sub-1"] again: two notifications for one subscription. *)
Lemma rejected_update_is_sent_again :
  let r1 := run (GET Sample.env Sample.wUpdateFails Sample.req) Sample.dbTwo in
  let r2 := run (GET Sample.env Sample.wUpdateFails Sample.req) (final_db r1) in
  keyed Sample.dbTwo
  /\ outcome r1 = inr (mkResponse 200 (CountsBody 2 1 1))
  /\ deliveries EmailChannel "sub-1" (trace_of r1) = 1%nat
  /\ isNotified EmailChannel "sub-1" (final_db r1) = false
  /\ deliveries EmailChannel "sub-1" (trace_of r2) = 1%nat
  /\ ~ (deliveries EmailChannel "sub-1" (trace_of r1)
        + deliveries EmailChannel "sub-1" (trace_of r2) <= 1)%nat.
Proof.
  cbv zeta. split.
  - split; simpl; repeat constructor; simpl; intuition discriminate.
  - repeat split. vm_compute. lia.
Qed.

(** The run of the counterexample, call by call: the message for
    ["sub-1"] is accepted, its update is rejected and logged, and the row is
    as it was; ["sub-2"] is served and marked. *)
Example sample_rejected_update :
  run (GET Sample.env Sample.wUpdateFails Sample.req) Sample.dbTwo
  = (inr (mkResponse 200 (CountsBody 2 1 1)),
     mkDB [Sample.practice]
       [Sample.alice;
        Subscription.markNotified 1738348200500 Sample.bob] [],
     [SgSetApiKey "SG.key"; FindManySubscriptions; FindManyPushSubscriptions;
      SgMailSend "sub-1"
        (buildMessage Sample.env "alice@example.com"
           (toDebateEvent Sample.practice) 60) true;
      SubscriptionUpdate "sub-1" 1738348200500;
      ConsoleError "SendGrid error";
      SgMailSend "sub-2"
        (buildMessage Sample.env "bob@example.com"
           (toDebateEvent Sample.practice) 45) true;
      SubscriptionUpdate "sub-2" 1738348200500]).
Proof. reflexivity. Qed.

(** The sample run of the dispatcher and its repetition: three deliveries,
    then none. *)
Example sample_run_twice :
  let r1 := run (GET Sample.env Sample.w Sample.req) Sample.db in
  let r2 := run (GET Sample.env Sample.w Sample.req) (final_db r1) in
  outcome r1 = inr (mkResponse 200 (CountsBody 3 3 0))
  /\ deliveries EmailChannel "sub-1" (trace_of r1) = 1%nat
  /\ outcome r2 = inr (mkResponse 200 (CountsBody 0 0 0))
  /\ final_db r2 = final_db r1.
Proof. repeat split. Qed.
